(** * The conversational generation session engine of [web_chat.py]

    A shallow embedding of the preference store, of the history
    preparation done by [generate] (regeneration, reminder, compaction) and
    of the streaming loop of [generate_stream], followed by the properties
    of the specification that concern them.

    Conventions of the embedding.
    - Python text is a [string]; a character stands for a code point below
      256, which covers every literal the source compares against.
    - Python floats are binary64 primitive floats.
    - The inference engine, the random generator and the files of the
      working directory are inputs of the functions that use them.
    - A generator is modelled by the list of frames it yields to a client
      that reads it to the end. *)

From Stdlib Require Import Bool Arith ZArith Lia List Ascii String PrimFloat.
Import ListNotations.

Set Warnings "-inexact-float,-register-all".

Local Open Scope string_scope.
Local Open Scope list_scope.
Local Open Scope Z_scope.

(** ** Python text operations *)

Module PyStr.

(** [str.isspace] on one character (code points below 256). *)
Definition isspace (c : ascii) : bool :=
  let n := nat_of_ascii c in
  ((9 <=? n) && (n <=? 13) || (28 <=? n) && (n <=? 32)
   || (n =? 133) || (n =? 160))%nat.

(** [s.startswith(p)] *)
Fixpoint startswith (s p : string) {struct p} : bool :=
  match p, s with
  | EmptyString, _ => true
  | String _ _, EmptyString => false
  | String a p', String b s' => Ascii.eqb a b && startswith s' p'
  end.

(** [p in s] *)
Fixpoint contains (s p : string) : bool :=
  startswith s p ||
  match s with
  | EmptyString => false
  | String _ s' => contains s' p
  end.

Fixpoint rev_onto (s acc : string) : string :=
  match s with
  | EmptyString => acc
  | String c s' => rev_onto s' (String c acc)
  end.

Definition reversed (s : string) : string := rev_onto s EmptyString.

(** [s.endswith(p)] *)
Definition endswith (s p : string) : bool := startswith (reversed s) (reversed p).

(** [s.lstrip()] *)
Fixpoint lstrip (s : string) : string :=
  match s with
  | EmptyString => EmptyString
  | String c s' => if isspace c then lstrip s' else s
  end.

(** [s.rstrip()] *)
Definition rstrip (s : string) : string := reversed (lstrip (reversed s)).

(** [s.strip()] *)
Definition strip (s : string) : string := rstrip (lstrip s).

(** [s] is empty or holds white space only. *)
Fixpoint is_blank (s : string) : bool :=
  match s with
  | EmptyString => true
  | String c s' => isspace c && is_blank s'
  end.

(** [s[:-k]] for [k > 0]. *)
Definition drop_last (k : nat) (s : string) : string :=
  substring 0 (String.length s - k) s.

(** [s.replace(old, "")] for a non-empty [old]: occurrences are removed
    from left to right without overlap.  [skip] counts the characters of
    the occurrence being removed that are still ahead. *)
Fixpoint remove_from (old s : string) (skip : nat) : string :=
  match s with
  | EmptyString => EmptyString
  | String c s' =>
      match skip with
      | S k => remove_from old s' k
      | O =>
          if startswith s old
          then remove_from old s' (String.length old - 1)
          else String c (remove_from old s' 0)
      end
  end.

Definition remove (s old : string) : string := remove_from old s 0.

(** [''.join(l)] *)
Definition join (l : list string) : string :=
  fold_right String.append EmptyString l.

(** [s.split()]: the maximal runs of non-space characters.  [cur] is the
    current word, reversed; [None] between words. *)
Fixpoint split_from (s : string) (cur : option string) : list string :=
  match s with
  | EmptyString =>
      match cur with
      | None => []
      | Some w => [reversed w]
      end
  | String c s' =>
      if isspace c then
        match cur with
        | None => split_from s' None
        | Some w => reversed w :: split_from s' None
        end
      else
        match cur with
        | None => split_from s' (Some (String c EmptyString))
        | Some w => split_from s' (Some (String c w))
        end
  end.

Definition split (s : string) : list string := split_from s None.

(** [s.lower()] on one character: A-Z, and the capital letters of the
    upper half (192-222 except the multiplication sign 215). *)
Definition lower_char (c : ascii) : ascii :=
  let n := nat_of_ascii c in
  if ((65 <=? n) && (n <=? 90)
      || (192 <=? n) && (n <=? 222) && negb (n =? 215))%nat
  then ascii_of_nat (n + 32)
  else c.

Fixpoint lower (s : string) : string :=
  match s with
  | EmptyString => EmptyString
  | String c s' => String (lower_char c) (lower s')
  end.

(** [len(set(l))] *)
Definition count_distinct (l : list string) : nat :=
  List.length (nodup string_dec l).

(** [l[-k:]] for [k > 0]. *)
Definition last_items {A} (k : nat) (l : list A) : list A :=
  skipn (List.length l - k) l.

(** [l[:-k]] for [k > 0]. *)
Definition but_last_items {A} (k : nat) (l : list A) : list A :=
  firstn (List.length l - k) l.

(** [float(n)], exact as long as binary64 represents [n] (below 2^53). *)
Fixpoint float_of_nat (n : nat) : float :=
  match n with
  | O => 0%float
  | S k => (float_of_nat k + 1)%float
  end.

(** [a / b] on two such non-negative integers. *)
Definition truediv (a b : nat) : float :=
  (float_of_nat a / float_of_nat b)%float.

End PyStr.

Import PyStr.

(** ** Data model *)

Inductive role := user | assistant | system.

Record Turn := { turn_role : role; content : string }.

(** One item of [stream_generate]: its [text] and its [finish_reason]
    ([None] while the engine goes on). *)
Record response := { text : string; finish_reason : option string }.

(** What the lazy sequence returned by [stream_generate] does when it is
    iterated: it yields a response and goes on, or it is exhausted, or it
    raises. *)
Inductive engine_stream :=
| Finished
| Failure (msg : string)
| Yield (r : response) (rest : engine_stream).

(** The frames of the event stream of [/generate]. *)
Inductive frame :=
| TokenFrame (token : string)
| ErrorFrame (msg : string)
| DoneFrame.

(** The sequence that yields the responses [rs], then does as [rest]. *)
Definition stream_of (rs : list response) (rest : engine_stream)
  : engine_stream :=
  fold_right Yield rest rs.

(** The first [k] responses of an unbounded generator [g], then [rest]. *)
Definition unroll (g : nat -> response) (k : nat) (rest : engine_stream)
  : engine_stream :=
  stream_of (map g (seq 0 k)) rest.

(** ** The streaming loop of [generate_stream] *)

Definition stop_patterns : list string :=
  [ "User:"; String "010" "User"; "Assistant:"; String "010" "Assistant";
    String "010" "A:"; "A:"; String "010" "Q:"; "Q:";
    String "010" (String "010" "---"); "Human:"; String "010" "Human" ].

Definition chat_template_tokens : list string :=
  [ "<|eot_id|>"; "<|start_header_id|>"; "<|end_header_id|>";
    "<|im_start|>"; "<|im_end|>"; "<s>"; "</s>" ].

Definition repetition_window : nat := 100.

Definition wrap_up_threshold : Z := 768.

Definition sentence_ends : list string :=
  [ "."; "!"; "?"; String "010" "" ].

Definition closing_phrases : list string :=
  [ "in conclusion"; "finally"; "to summarize"; "overall"; "in summary" ].

(** The local variables of the loop, and the frames yielded so far. *)
Record loop_state := {
  full_response : string;
  token_count : Z;
  last_50_tokens : list string;
  recent_tokens : list string;
  yielded : list frame
}.

Definition initial_state : loop_state :=
  {| full_response := ""; token_count := 0; last_50_tokens := [];
     recent_tokens := []; yielded := [] |}.

(** The way the [for] loop is left: one constructor per [break], one for
    the exhausted engine and one for an exception of the engine. *)
Inductive loop_exit :=
| PatternBreak
| RepetitionBreak
| WrapUpBreak
| LimitBreak
| FinishBreak
| Exhausted
| Raised (msg : string).

(** [any(p in s for p in patterns)] *)
Definition any_in (patterns : list string) (s : string) : bool :=
  existsb (contains s) patterns.

(** The two tests of lines 498 and 502 together. *)
Definition has_marker (s : string) : bool :=
  any_in stop_patterns s || any_in chat_template_tokens s.

(** [l.append(x)], then [l.pop(0)] once [len(l) > size]. *)
Definition push_window (size : nat) (x : string) (l : list string)
  : list string :=
  let l' := l ++ [x] in
  if (size <? List.length l')%nat then tl l' else l'.

(** Lines 519-527. *)
Definition repetition_detected (count : Z) (last50 : list string) : bool :=
  (50 <? count) && (count mod 25 =? 0) &&
  (let recent_text := join (last_items 40 last50) in
   let words := split recent_text in
   (15 <? List.length words)%nat &&
   (truediv (count_distinct words) (List.length words) <? 0.25)%float).

(** Lines 536-544. *)
Definition wrap_up_detected (count : Z) (token : string)
    (last50 : list string) : bool :=
  (wrap_up_threshold <=? count) &&
  existsb (String.eqb token) sentence_ends &&
  (let recent_tokens_text := join (last_items 10 last50) in
   any_in closing_phrases (lower recent_tokens_text)).

(** [response.finish_reason == "stop"] *)
Definition finished_with_stop (r : response) : bool :=
  match finish_reason r with
  | Some reason => String.eqb reason "stop"
  | None => false
  end.

(** The body of the loop on one response: the state after it and, when the
    loop is left, how. *)
Definition loop_body (max_tokens : Z) (r : response) (st : loop_state)
  : loop_state * option loop_exit :=
  let token := text r in
  let test_response := (full_response st ++ token)%string in
  if any_in stop_patterns test_response then (st, Some PatternBreak)
  else if any_in chat_template_tokens test_response
  then (st, Some PatternBreak)
  else
    let count := token_count st + 1 in
    let last50 := push_window 50 token (last_50_tokens st) in
    let st1 :=
      {| full_response := test_response;
         token_count := count;
         last_50_tokens := last50;
         recent_tokens :=
           push_window repetition_window token (recent_tokens st);
         yielded := yielded st |} in
    if repetition_detected count last50 then (st1, Some RepetitionBreak)
    else if wrap_up_detected count token last50 then (st1, Some WrapUpBreak)
    else if max_tokens <=? count then (st1, Some LimitBreak)
    else
      let st2 :=
        {| full_response := full_response st1;
           token_count := token_count st1;
           last_50_tokens := last_50_tokens st1;
           recent_tokens := recent_tokens st1;
           yielded := yielded st1 ++ [TokenFrame token] |} in
      if finished_with_stop r then (st2, Some FinishBreak) else (st2, None).

Fixpoint stream_loop (max_tokens : Z) (engine : engine_stream)
    (st : loop_state) : loop_state * loop_exit :=
  match engine with
  | Finished => (st, Exhausted)
  | Failure msg => (st, Raised msg)
  | Yield r rest =>
      match loop_body max_tokens r st with
      | (st', Some how) => (st', how)
      | (st', None) => stream_loop max_tokens rest st'
      end
  end.

(** ** Termination of [generate_stream]: lines 555-580 *)

Definition template_tokens : list string :=
  [ "<|eot_id|>"; "<|start_header_id|>"; "<|end_header_id|>";
    "<|im_start|>"; "<|im_end|>"; "<s>"; "</s>"; "<|assistant|>";
    "<|user|>"; "<|system|>" ].

Definition role_patterns : list string :=
  [ "Assistant:"; "User:"; "Human:"; "AI:" ].

(** Lines 558-571. *)
Definition clean_response (full : string) : string :=
  let cleaned := fold_left remove template_tokens (strip full) in
  fold_left
    (fun cleaned pattern =>
       if endswith cleaned pattern
       then strip (drop_last (String.length pattern) cleaned)
       else cleaned)
    role_patterns cleaned.

(** Lines 556-573: the history after the loop was left by a [break] or by
    exhaustion. *)
Definition persist_response (full : string) (history : list Turn)
  : list Turn :=
  match strip full with
  | EmptyString => history
  | _ => history ++ [ {| turn_role := assistant;
                         content := clean_response full |} ]
  end.

(** [generate_stream]: the frames sent to the client and the conversation
    history afterwards. *)
Definition generate_stream (max_tokens : Z) (engine : engine_stream)
    (history : list Turn) : list frame * list Turn :=
  match stream_loop max_tokens engine initial_state with
  | (st, Raised msg) => (yielded st ++ [ErrorFrame msg; DoneFrame], history)
  | (st, _) =>
      (yielded st ++ [DoneFrame], persist_response (full_response st) history)
  end.

(** The text the client has received: the tokens of the frames, in
    order. *)
Definition frame_text (f : frame) : string :=
  match f with
  | TokenFrame token => token
  | _ => ""
  end.

Definition sent_text (frames : list frame) : string :=
  join (map frame_text frames).

(** The accumulated text is the text sent, followed by [withheld]. *)
Definition in_step (st : loop_state) (withheld : string) : Prop :=
  full_response st = (sent_text (yielded st) ++ withheld)%string.

(** ** History preparation in [generate]: lines 373-406 *)

(** The session: the globals [conversation_history] and [current_seed]. *)
Record session := {
  conversation_history : list Turn;
  current_seed : Z
}.

Definition LF : string := String "010" "".

Definition default_system_prompt : string :=
  "You are a helpful, harmless, and honest AI assistant. Provide clear, accurate, and concise responses.".

Definition summary_instruction : string :=
  "Please create a concise summary of this story conversation, preserving key plot points, characters, settings, and important details:".

Definition summary_placeholder : string :=
  "Previous story context continues...".

(** [summary += chunk.text] over the whole sequence; [None] when the
    engine raises. *)
Fixpoint collect_text (engine : engine_stream) (summary : string)
  : option string :=
  match engine with
  | Finished => Some summary
  | Failure _ => None
  | Yield chunk rest => collect_text rest (summary ++ text chunk)%string
  end.

Section Generate.

(** The content of [system_prompt.txt], if the file exists. *)
Variable system_prompt_file : option string.

(** What [stream_generate] does on the summarisation prompt, with the
    fixed sampling parameters of [summarize_context]. *)
Variable summary_engine : string -> engine_stream.

Definition load_system_prompt : string :=
  match system_prompt_file with
  | Some raw => strip raw
  | None => default_system_prompt
  end.

Definition transcript_line (context_text : string) (msg : Turn) : string :=
  match turn_role msg with
  | user => (context_text ++ "User: " ++ content msg ++ LF)%string
  | assistant => (context_text ++ "Assistant: " ++ content msg ++ LF)%string
  | system => context_text
  end.

Definition summarize_context (messages_to_summarize : list Turn) : string :=
  let context_text := fold_left transcript_line messages_to_summarize "" in
  let summary_prompt :=
    (summary_instruction ++ LF ++ LF ++ context_text ++ LF ++ LF
       ++ "Summary:")%string in
  match collect_text (summary_engine summary_prompt) "" with
  | Some summary => strip summary
  | None => summary_placeholder
  end.

(** Lines 374-381.  [draw] is the value [random.randint(1, 1000000)]
    returns when it is called. *)
Definition begin_request (regenerate : bool) (user_input : string)
    (draw : Z) (s : session) : session :=
  if regenerate then
    {| conversation_history :=
         match List.rev (conversation_history s) with
         | {| turn_role := assistant |} :: _ =>
             removelast (conversation_history s)
         | _ => conversation_history s
         end;
       current_seed := draw |}
  else
    {| conversation_history :=
         conversation_history s
           ++ [ {| turn_role := user; content := user_input |} ];
       current_seed := current_seed s |}.

(** Lines 384-386. *)
Definition add_reminder (history : list Turn) : list Turn :=
  if (Nat.modulo (List.length history) 10 =? 0)%nat
     && (0 <? List.length history)%nat
  then history ++ [ {| turn_role := system;
                       content := ("REMINDER: " ++ load_system_prompt)%string |} ]
  else history.

Definition summary_turn (messages_to_summarize : list Turn) : Turn :=
  {| turn_role := system;
     content := (load_system_prompt ++ LF ++ LF ++ "Story context: "
                   ++ summarize_context messages_to_summarize)%string |}.

(** Lines 389-406. *)
Definition compact (history : list Turn) : list Turn :=
  if (100 <? List.length history)%nat then
    let recent_messages := last_items 50 history in
    let messages_to_summarize := but_last_items 50 history in
    match messages_to_summarize with
    | [] => history
    | _ => [summary_turn messages_to_summarize] ++ recent_messages
    end
  else history.

(** Lines 373-406 together. *)
Definition prepare (regenerate : bool) (user_input : string) (draw : Z)
    (s : session) : session :=
  let s1 := begin_request regenerate user_input draw s in
  {| conversation_history :=
       compact (add_reminder (conversation_history s1));
     current_seed := current_seed s1 |}.

(** What [/generate] answers: a plain error when the model is not
    loaded, the event stream otherwise. *)
Inductive answer :=
| NotLoaded
| EventStream (frames : list frame).

(** [generate], with [max_tokens] already resolved from the request and
    the preferences.  [engine] is what [stream_generate] does on the
    prompt assembled from the prepared history; the seed given to
    [mx.random.seed] is the one of the prepared session. *)
Definition generate (model_loaded regenerate : bool) (user_input : string)
    (max_tokens : Z) (draw : Z) (engine : engine_stream) (s : session)
  : answer * session :=
  if model_loaded then
    let s1 := prepare regenerate user_input draw s in
    let (frames, history) :=
      generate_stream max_tokens engine (conversation_history s1) in
    (EventStream frames,
     {| conversation_history := history; current_seed := current_seed s1 |})
  else (NotLoaded, s).

End Generate.

(** ** The preference store *)

(** A value decoded from JSON. *)
Inductive json :=
| JNull
| JBool (b : bool)
| JInt (n : Z)
| JFloat (x : float)
| JStr (s : string)
| JList (items : list json)
| JDict (entries : list (string * json)).

Inductive exception :=
| FileNotFoundError
| JSONDecodeError
| BadRequest.

Inductive outcome (A : Type) :=
| Returns (a : A)
| Raises (e : exception).

Arguments Returns {A} a.
Arguments Raises {A} e.

(** What [slider_preferences.json] holds.  The [json] module is taken by
    its contract: the text left by [json.dump(v, f)] is decoded by
    [json.load] to [v] again, and a text that is not JSON is rejected. *)
Inductive file :=
| Absent
| Holds (v : json)
| Garbled (raw : string).

Definition default_preferences : json :=
  JDict [ ("temperature", JFloat 0.7);
          ("top_p", JFloat 0.9);
          ("top_k", JInt 50);
          ("repetition_penalty", JFloat 1.1);
          ("max_tokens", JInt 1024) ].

Definition load_slider_preferences (store : file) : outcome json :=
  match store with
  | Absent => Returns default_preferences
  | Holds v => Returns v
  | Garbled _ => Raises JSONDecodeError
  end.

Definition save_slider_preferences (preferences : json) (store : file)
  : file :=
  Holds preferences.

(** Python truth value. *)
Definition truthy (v : json) : bool :=
  match v with
  | JNull => false
  | JBool b => b
  | JInt n => negb (n =? 0)
  | JFloat x => negb (x =? 0)%float
  | JStr s => negb (String.eqb s "")
  | JList items => negb (Nat.eqb (List.length items) 0)
  | JDict entries => negb (Nat.eqb (List.length entries) 0)
  end.

(** [isinstance(v, dict)] *)
Definition is_dict (v : json) : bool :=
  match v with
  | JDict _ => true
  | _ => false
  end.

(** The answers of [/save_preferences]. *)
Inductive http_response :=
| Saved                 (* 200, status saved *)
| InvalidPreferences    (* 400, Invalid preferences data *)
| FailedToSave.         (* 500, Failed to save preferences *)

Definition status_code (r : http_response) : Z :=
  match r with
  | Saved => 200
  | InvalidPreferences => 400
  | FailedToSave => 500
  end.

(** [/save_preferences]; [body] is what [request.get_json()] does. *)
Definition save_preferences (body : outcome json) (store : file)
  : http_response * file :=
  match body with
  | Raises _ => (FailedToSave, store)
  | Returns preferences =>
      if negb (truthy preferences) || negb (is_dict preferences)
      then (InvalidPreferences, store)
      else (Saved, save_slider_preferences preferences store)
  end.

(** [/get_preferences] *)
Definition get_preferences (store : file) : outcome json :=
  load_slider_preferences store.

(** The contents the preference file has, one after the other, while
    [save_slider_preferences] runs: [open(..., 'w')] creates the file or
    cuts it to nothing, then [json.dump] and the end of the [with] block
    leave the text of [preferences].  There is no temporary file and no
    renaming. *)
Definition save_slider_preferences_steps (preferences : json) (store : file)
  : list file :=
  [Garbled ""; Holds preferences].

(** The same for [/save_preferences]: no content at all when the request
    is refused, since the file is not opened. *)
Definition save_preferences_steps (body : outcome json) (store : file)
  : list file :=
  match body with
  | Raises _ => []
  | Returns preferences =>
      if negb (truthy preferences) || negb (is_dict preferences)
      then []
      else save_slider_preferences_steps preferences store
  end.

(** What the specification calls an atomic overwrite: whoever reads the
    file while it is written finds the old content or the new one. *)
Definition spec_atomic (old new : file) (steps : list file) : Prop :=
  Forall (fun content => content = old \/ content = new) steps.

(** The five keys of a preference set. *)
Definition recognized_keys : list string :=
  [ "temperature"; "top_p"; "top_k"; "repetition_penalty"; "max_tokens" ].

Definition is_number (v : json) : bool :=
  match v with
  | JInt _ | JFloat _ => true
  | _ => false
  end.

(** The payloads the specification calls well formed: a mapping that
    gives a number to each of the five recognized keys and has no other
    key. *)
Definition spec_well_formed (v : json) : bool :=
  match v with
  | JDict entries =>
      forallb (fun k => existsb (String.eqb k) (map fst entries))
              recognized_keys
      && forallb (fun kv => existsb (String.eqb (fst kv)) recognized_keys
                            && is_number (snd kv)) entries
      && Nat.eqb (List.length entries) 5
  | _ => false
  end.

(** ** Synthetic engines *)

Definition tok (s : string) : response :=
  {| text := s; finish_reason := None |}.

(** The engine that repeats the phrase "hello world", one word a token. *)
Definition two_words (i : nat) : response :=
  if Nat.even i then tok "hello " else tok "world ".

(** ** The message endpoints: lines 263-300 *)

(** Lines 275-279, on the history read backwards: the content of the
    first user turn met, the empty text when there is none. *)
Fixpoint scan_user_prompt (reversed_history : list Turn) : string :=
  match reversed_history with
  | [] => ""
  | msg :: older =>
      match turn_role msg with
      | user => content msg
      | _ => scan_user_prompt older
      end
  end.

Definition last_user_prompt (history : list Turn) : string :=
  scan_user_prompt (List.rev history).

(** [l.pop(i)] for [0 <= i < len(l)]. *)
Definition pop_at {A} (i : nat) (l : list A) : list A :=
  firstn i l ++ skipn (S i) l.

(** [/delete_message] with an integer or missing [index]: the history
    afterwards and the value assigned to [lastUserPrompt], if one is. *)
Definition delete_message (message_index : option Z) (history : list Turn)
  : list Turn * option string :=
  match message_index with
  | Some i =>
      if (0 <=? i) && (i <? Z.of_nat (List.length history)) then
        let history' := pop_at (Z.to_nat i) history in
        (history', Some (last_user_prompt history'))
      else (history, None)
  | None => (history, None)
  end.

(** [/delete_last_message] *)
Definition delete_last_message (history : list Turn)
  : list Turn * option string :=
  match history with
  | [] => (history, None)
  | _ :: _ =>
      let history' := removelast history in
      (history', Some (last_user_prompt history'))
  end.

(** ** Prompt assembly, fallback format: lines 411-428 *)

Definition structured_guidance : string :=
  (LF ++ LF ++ "RESPONSE GUIDELINES: Keep responses focused and concise. Aim for 2-3 paragraphs maximum. Include narrative description, character dialogue when appropriate, and clear scene progression. Avoid rambling or repetitive content.")%string.

(** Lines 422-428; the loop of lines 423-427 adds the same lines as the
    one of [summarize_context]. *)
Definition fallback_prompt (system_prompt_file : option string)
    (history : list Turn) : string :=
  (fold_left transcript_line history
     (load_system_prompt system_prompt_file ++ structured_guidance
        ++ LF ++ LF)
   ++ "Assistant:")%string.

(** ** Sampling parameters of a request: lines 361-371 *)

(** [d.get(key)] on the entries of a mapping. *)
Fixpoint dict_lookup (key : string) (entries : list (string * json))
  : option json :=
  match entries with
  | [] => None
  | (k, v) :: rest =>
      if String.eqb k key then Some v else dict_lookup key rest
  end.

(** [d.get(key, default)] *)
Definition dict_get (key : string) (default : json)
    (entries : list (string * json)) : json :=
  match dict_lookup key entries with
  | Some v => v
  | None => default
  end.

Inductive resolution_error :=
| PreferencesUnreadable (e : exception)
| KeyError (key : string)
| TypeError.

(** [prefs[key]] *)
Definition subscript (prefs : json) (key : string)
  : json + resolution_error :=
  match prefs with
  | JDict entries =>
      match dict_lookup key entries with
      | Some v => inl v
      | None => inr (KeyError key)
      end
  | _ => inr TypeError
  end.

Record request_parameters := {
  req_prompt : json;
  req_max_tokens : json;
  req_temperature : json;
  req_top_p : json;
  req_top_k : json;
  req_repetition_penalty : json;
  req_regenerate : json
}.

(** [data.get(key, prefs[key])]: the default is evaluated first. *)
Definition with_default (data : list (string * json)) (prefs : json)
    (key : string) : json + resolution_error :=
  match subscript prefs key with
  | inl stored => inl (dict_get key stored data)
  | inr e => inr e
  end.

(** Lines 361-371, for a request body [data] that is a mapping. *)
Definition resolve_parameters (data : list (string * json)) (store : file)
  : request_parameters + resolution_error :=
  match load_slider_preferences store with
  | Raises e => inr (PreferencesUnreadable e)
  | Returns prefs =>
      match with_default data prefs "max_tokens" with
      | inr e => inr e
      | inl max_tokens =>
      match with_default data prefs "temperature" with
      | inr e => inr e
      | inl temperature =>
      match with_default data prefs "top_p" with
      | inr e => inr e
      | inl top_p =>
      match with_default data prefs "top_k" with
      | inr e => inr e
      | inl top_k =>
      match with_default data prefs "repetition_penalty" with
      | inr e => inr e
      | inl repetition_penalty =>
          inl {| req_prompt := dict_get "prompt" (JStr "") data;
                 req_max_tokens := max_tokens;
                 req_temperature := temperature;
                 req_top_p := top_p;
                 req_top_k := top_k;
                 req_repetition_penalty := repetition_penalty;
                 req_regenerate := dict_get "regenerate" (JBool false) data |}
      end end end end end
  end.

(** ** The requests that change the session *)

Inductive operation :=
| Generate (system_prompt_file : option string)
           (summary_engine : string -> engine_stream)
           (model_loaded regenerate : bool) (user_input : string)
           (max_tokens : Z) (draw : Z) (engine : engine_stream)
| DeleteMessage (message_index : option Z)
| DeleteLastMessage
| RandomizeSeed (draw : Z).

(** One request served on the session. *)
Definition serve_one (s : session) (op : operation) : session :=
  match op with
  | Generate system_prompt_file summary_engine model_loaded regenerate
             user_input max_tokens draw engine =>
      snd (generate system_prompt_file summary_engine model_loaded
             regenerate user_input max_tokens draw engine s)
  | DeleteMessage message_index =>
      {| conversation_history :=
           fst (delete_message message_index (conversation_history s));
         current_seed := current_seed s |}
  | DeleteLastMessage =>
      {| conversation_history :=
           fst (delete_last_message (conversation_history s));
         current_seed := current_seed s |}
  | RandomizeSeed draw =>
      {| conversation_history := conversation_history s;
         current_seed := draw |}
  end.

(** Requests served one after the other. *)
Definition serve (ops : list operation) (s : session) : session :=
  fold_left serve_one ops s.

(** The session when the server starts; [draw] is the first seed. *)
Definition start (draw : Z) : session :=
  {| conversation_history := []; current_seed := draw |}.

(** [True] on token frames. *)
Definition is_token_frame (f : frame) : bool :=
  match f with
  | TokenFrame _ => true
  | _ => false
  end.

Definition count_token_frames (frames : list frame) : nat :=
  List.length (filter is_token_frame frames).

(** [msg["role"] != "system"] *)
Definition not_system (msg : Turn) : bool :=
  match turn_role msg with
  | system => false
  | _ => true
  end.

(** While the loop goes on, as many frames were yielded as tokens were
    counted, and the count is below the limit. *)
Definition counted (m : Z) (st : loop_state) : Prop :=
  Z.of_nat (List.length (yielded st)) = token_count st
  /\ (token_count st = 0 \/ token_count st < m).

(** The engine gives a reply that is persisted: no failure, and a text
    that is not blank. *)
Definition replies (max_tokens : Z) (engine : engine_stream) : bool :=
  match stream_loop max_tokens engine initial_state with
  | (_, Raised _) => false
  | (st, _) => negb (is_blank (full_response st))
  end.

(** A request for a new message, served with the model loaded and
    answered by a reply. *)
Definition plain_exchange (op : operation) : bool :=
  match op with
  | Generate _ _ true false _ max_tokens _ engine => replies max_tokens engine
  | _ => false
  end.

(** The state of the history between plain exchanges: an even number of
    turns, and no system turn after the first turn. *)
Definition alternating (history : list Turn) : Prop :=
  Nat.even (List.length history) = true
  /\ Forall (fun msg => turn_role msg <> system) (tl history).

(** The requests other than a reseeding and a regeneration served with
    the model loaded. *)
Definition keeps_seed (op : operation) : bool :=
  match op with
  | Generate _ _ model_loaded regenerate _ _ _ _ =>
      negb (model_loaded && regenerate)
  | DeleteMessage _ | DeleteLastMessage => true
  | RandomizeSeed _ => false
  end.

(** No character of [s] is white space. *)
Fixpoint no_space (s : string) : bool :=
  match s with
  | EmptyString => true
  | String c s' => negb (isspace c) && no_space s'
  end.

(** No token of the engine holds white space. *)
Fixpoint spaceless (engine : engine_stream) : bool :=
  match engine with
  | Yield r rest => no_space (text r) && spaceless rest
  | _ => true
  end.

(** * Properties *)

(** ** Text *)

Lemma append_assoc (a b c : string) :
  ((a ++ b) ++ c)%string = (a ++ (b ++ c))%string.
Proof.
  induction a as [|x a IH]; simpl; [reflexivity | now rewrite IH].
Qed.

Lemma append_empty_r (a : string) : (a ++ "")%string = a.
Proof.
  induction a as [|x a IH]; simpl; [reflexivity | now rewrite IH].
Qed.

Lemma join_app (l1 l2 : list string) :
  join (l1 ++ l2) = (join l1 ++ join l2)%string.
Proof.
  induction l1 as [|x l1 IH]; simpl; [reflexivity|].
  now rewrite IH, append_assoc.
Qed.

Lemma startswith_append (s p t : string) :
  startswith s p = true -> startswith (s ++ t) p = true.
Proof.
  revert s; induction p as [|a p IH]; intros s H; [reflexivity|].
  destruct s as [|b s]; simpl in *; [discriminate|].
  apply andb_true_iff in H as [Hab Hs].
  now rewrite Hab, (IH _ Hs).
Qed.

Lemma contains_append (s p t : string) :
  contains s p = true -> contains (s ++ t) p = true.
Proof.
  induction s as [|c s IH]; intro H.
  - destruct p; [now destruct t | discriminate].
  - cbn [contains] in H. apply orb_true_iff in H as [H|H].
    + change (String c s ++ t)%string with (String c (s ++ t)).
      cbn [contains].
      change (String c (s ++ t)) with (String c s ++ t)%string.
      now rewrite (startswith_append _ _ _ H).
    + change (String c s ++ t)%string with (String c (s ++ t)).
      cbn [contains]. rewrite (IH H). apply orb_true_r.
Qed.

Lemma any_in_append (patterns : list string) (s t : string) :
  any_in patterns (s ++ t) = false -> any_in patterns s = false.
Proof.
  unfold any_in. intro H.
  destruct (existsb (contains s) patterns) eqn:E; [|reflexivity].
  apply existsb_exists in E as (p & Hp & Hc).
  rewrite <- H. symmetry. apply existsb_exists.
  exists p. split; [assumption | now apply contains_append].
Qed.

Lemma startswith_spec (s p : string) :
  startswith s p = true <-> exists t, s = (p ++ t)%string.
Proof.
  split.
  - revert s. induction p as [|a p IH]; intros s H; [now exists s|].
    destruct s as [|b s]; simpl in H; [discriminate|].
    apply andb_true_iff in H as [Hab Hs].
    apply Ascii.eqb_eq in Hab. subst b.
    destruct (IH _ Hs) as [t ->]. now exists t.
  - intros [t ->]. induction p as [|a p IH]; [reflexivity|].
    simpl. now rewrite Ascii.eqb_refl.
Qed.

Lemma startswith_contains (s p : string) :
  startswith s p = true -> contains s p = true.
Proof.
  intro H. destruct s; simpl; now rewrite H.
Qed.

(** [contains s p] holds exactly when [p] occurs in [s]. *)
Lemma contains_spec (s p : string) :
  contains s p = true <-> exists pre post, s = (pre ++ p ++ post)%string.
Proof.
  split.
  - induction s as [|c s IH]; cbn [contains]; intro H.
    + rewrite orb_false_r in H.
      apply startswith_spec in H as [t Ht]. now exists "", t.
    + apply orb_true_iff in H as [H|H].
      * apply startswith_spec in H as [t Ht]. now exists "", t.
      * destruct (IH H) as (pre & post & ->).
        now exists (String c pre), post.
  - intros (pre & post & ->).
    induction pre as [|c pre IH].
    + apply startswith_contains, startswith_spec. now exists post.
    + change (String c pre ++ p ++ post)%string
        with (String c (pre ++ p ++ post)).
      cbn [contains]. rewrite IH. apply orb_true_r.
Qed.

Lemma rev_onto_spec (s acc : string) :
  rev_onto s acc = (reversed s ++ acc)%string.
Proof.
  unfold reversed. revert acc.
  induction s as [|c s IH]; intro acc; [reflexivity|].
  simpl. rewrite (IH (String c "")), IH, append_assoc. reflexivity.
Qed.

Lemma reversed_cons (c : ascii) (s : string) :
  reversed (String c s) = (reversed s ++ String c "")%string.
Proof.
  unfold reversed at 1. simpl. apply rev_onto_spec.
Qed.

Lemma reversed_app (a b : string) :
  reversed (a ++ b) = (reversed b ++ reversed a)%string.
Proof.
  induction a as [|c a IH]; simpl.
  - now rewrite append_empty_r.
  - now rewrite !reversed_cons, IH, append_assoc.
Qed.

Lemma reversed_involutive (s : string) : reversed (reversed s) = s.
Proof.
  induction s as [|c s IH]; [reflexivity|].
  now rewrite reversed_cons, reversed_app, IH.
Qed.

(** [endswith s p] holds exactly when [s] ends with [p]. *)
Lemma endswith_spec (s p : string) :
  endswith s p = true <-> exists t, s = (t ++ p)%string.
Proof.
  unfold endswith. rewrite startswith_spec. split.
  - intros [t H]. exists (reversed t).
    rewrite <- (reversed_involutive s), H, reversed_app.
    now rewrite reversed_involutive.
  - intros [t ->]. exists (reversed t). apply reversed_app.
Qed.

Lemma is_blank_app (a b : string) :
  is_blank (a ++ b) = is_blank a && is_blank b.
Proof.
  induction a as [|c a IH]; simpl; [reflexivity|].
  now rewrite IH, andb_assoc.
Qed.

Lemma is_blank_reversed (s : string) : is_blank (reversed s) = is_blank s.
Proof.
  induction s as [|c s IH]; [reflexivity|].
  rewrite reversed_cons, is_blank_app, IH. simpl.
  now rewrite andb_true_r, andb_comm.
Qed.

Lemma lstrip_blank (s : string) :
  lstrip s = "" <-> is_blank s = true.
Proof.
  induction s as [|c s IH]; simpl; [tauto|].
  destruct (isspace c); simpl; [exact IH|].
  split; discriminate.
Qed.

Lemma lstrip_is_blank (s : string) :
  is_blank (lstrip s) = true -> is_blank s = true.
Proof.
  induction s as [|c s IH]; simpl; [trivial|].
  destruct (isspace c) eqn:E; simpl; [exact IH|].
  now rewrite E.
Qed.

(** [strip] gives the empty text exactly on blank texts. *)
Lemma strip_blank (s : string) :
  strip s = "" <-> is_blank s = true.
Proof.
  unfold strip, rstrip. split.
  - intro H. apply (f_equal reversed) in H.
    rewrite reversed_involutive in H. simpl in H.
    apply lstrip_blank in H. rewrite is_blank_reversed in H.
    now apply lstrip_is_blank.
  - intro H. apply lstrip_blank in H. now rewrite H.
Qed.

Example split_words :
  split (" hello  world" ++ LF ++ "again ")%string
  = ["hello"; "world"; "again"].
Proof. reflexivity. Qed.

Example remove_occurrences : remove "a<s><s>b<<s>s>c" "<s>" = "ab<s>c".
Proof. reflexivity. Qed.

Example strip_both_sides :
  strip (LF ++ "  User: " ++ LF)%string = "User:".
Proof. reflexivity. Qed.

Example lower_latin : lower "In CONCLUSION" = "in conclusion".
Proof. reflexivity. Qed.

(** ** Engine sequences *)

Lemma stream_of_app (rs1 rs2 : list response) (rest : engine_stream) :
  stream_of (rs1 ++ rs2) rest = stream_of rs1 (stream_of rs2 rest).
Proof.
  unfold stream_of. apply fold_right_app.
Qed.

Lemma unroll_split (g : nat -> response) (n k : nat) (rest : engine_stream) :
  (n <= k)%nat ->
  unroll g k rest = unroll g n (stream_of (map g (seq n (k - n))) rest).
Proof.
  intro H. unfold unroll.
  replace k with (n + (k - n))%nat at 1 by lia.
  now rewrite seq_app, map_app, stream_of_app.
Qed.

(** ** The loop body *)

Lemma has_marker_append (s t : string) :
  has_marker (s ++ t) = false -> has_marker s = false.
Proof.
  unfold has_marker. intro H.
  apply orb_false_iff in H as [H1 H2].
  now rewrite (any_in_append _ _ _ H1), (any_in_append _ _ _ H2).
Qed.

(** A response that completes a marker leaves the loop at once, with
    the state as it was: nothing is accumulated and nothing is yielded. *)
Lemma loop_body_marker (m : Z) (r : response) (st : loop_state) :
  has_marker (full_response st ++ text r) = true ->
  loop_body m r st = (st, Some PatternBreak).
Proof.
  unfold has_marker, loop_body.
  destruct (any_in stop_patterns _); [reflexivity|].
  destruct (any_in chat_template_tokens _); [reflexivity|].
  intro H. discriminate H.
Qed.

Lemma repetition_quiet (count : Z) (last50 : list string) :
  count < 75 -> repetition_detected count last50 = false.
Proof.
  intro H. unfold repetition_detected.
  destruct (50 <? count) eqn:E1; [|reflexivity].
  destruct (count mod 25 =? 0) eqn:E2; [|reflexivity].
  apply Z.ltb_lt in E1. apply Z.eqb_eq in E2.
  apply Z.mod_divide in E2; [|lia]. destruct E2 as [q Hq]. lia.
Qed.

Lemma wrap_up_quiet (count : Z) (token : string) (last50 : list string) :
  count < 768 -> wrap_up_detected count token last50 = false.
Proof.
  intro H. unfold wrap_up_detected, wrap_up_threshold.
  destruct (768 <=? count) eqn:E; [|reflexivity].
  apply Z.leb_le in E. lia.
Qed.

(** Below the first check point, a response without marker is accepted
    and yielded as long as the limit is not reached... *)
Lemma loop_body_pass (m : Z) (r : response) (st : loop_state) :
  has_marker (full_response st ++ text r) = false ->
  token_count st + 1 < 75 ->
  token_count st + 1 < m ->
  finished_with_stop r = false ->
  exists st',
    loop_body m r st = (st', None)
    /\ full_response st' = (full_response st ++ text r)%string
    /\ token_count st' = token_count st + 1
    /\ yielded st' = yielded st ++ [TokenFrame (text r)].
Proof.
  intros Hm H75 Hlim Hfin. unfold has_marker in Hm.
  apply orb_false_iff in Hm as [Hm1 Hm2].
  unfold loop_body. rewrite Hm1, Hm2.
  rewrite repetition_quiet by assumption.
  rewrite wrap_up_quiet by lia.
  destruct (m <=? token_count st + 1) eqn:E; [apply Z.leb_le in E; lia|].
  rewrite Hfin. eexists. split; [reflexivity|]. now simpl.
Qed.

(** ... and when the limit is reached it is accumulated but not yielded. *)
Lemma loop_body_limit (m : Z) (r : response) (st : loop_state) :
  has_marker (full_response st ++ text r) = false ->
  token_count st + 1 < 75 ->
  m <= token_count st + 1 ->
  exists st',
    loop_body m r st = (st', Some LimitBreak)
    /\ full_response st' = (full_response st ++ text r)%string
    /\ token_count st' = token_count st + 1
    /\ yielded st' = yielded st.
Proof.
  intros Hm H75 Hlim. unfold has_marker in Hm.
  apply orb_false_iff in Hm as [Hm1 Hm2].
  unfold loop_body. rewrite Hm1, Hm2.
  rewrite repetition_quiet by assumption.
  rewrite wrap_up_quiet by lia.
  destruct (m <=? token_count st + 1) eqn:E; [|apply Z.leb_gt in E; lia].
  eexists. split; [reflexivity|]. now simpl.
Qed.


(** The body leaves the loop by one of the five [break]s only. *)
Lemma loop_body_break (m : Z) (r : response) (st st' : loop_state)
    (how : loop_exit) :
  loop_body m r st = (st', Some how) ->
  how <> Exhausted /\ forall msg, how <> Raised msg.
Proof.
  unfold loop_body.
  repeat match goal with
         | |- context [if ?c then _ else _] => destruct c
         end;
    intro H; inversion H; subst; split; try intro; discriminate.
Qed.


(** ** The loop *)



(** Reading [rs] to the end and then [rest] is reading [rest] from
    the state in which [rs] leaves the loop. *)
Lemma stream_loop_app (m : Z) (rs : list response) (rest : engine_stream) :
  forall st st',
    stream_loop m (stream_of rs Finished) st = (st', Exhausted) ->
    stream_loop m (stream_of rs rest) st = stream_loop m rest st'.
Proof.
  induction rs as [|r rs IH]; intros st st' H; simpl in *.
  - now injection H as <-.
  - destruct (loop_body m r st) as [st1 [x|]] eqn:E; [|now apply IH].
    apply loop_body_break in E as [E _].
    injection H as _ ->. now contradiction E.
Qed.

(** The accumulated text never holds a marker. *)
Lemma loop_body_no_marker (m : Z) (r : response) (st st' : loop_state)
    (how : option loop_exit) :
  has_marker (full_response st) = false ->
  loop_body m r st = (st', how) ->
  has_marker (full_response st') = false.
Proof.
  intro Hst. unfold loop_body.
  destruct (any_in stop_patterns _) eqn:E1;
    [intro H; now injection H as <- _|].
  destruct (any_in chat_template_tokens _) eqn:E2;
    [intro H; now injection H as <- _|].
  repeat match goal with
         | |- context [if ?c then _ else _] => destruct c
         end;
    intro H; injection H as <- _; unfold has_marker;
    cbn [full_response]; now rewrite E1, E2.
Qed.

Lemma stream_loop_no_marker (m : Z) (engine : engine_stream) :
  forall st st' how,
    has_marker (full_response st) = false ->
    stream_loop m engine st = (st', how) ->
    has_marker (full_response st') = false.
Proof.
  induction engine as [|msg|r rest IH]; intros st st' how Hst H;
    simpl in H.
  - now injection H as <- _.
  - now injection H as <- _.
  - destruct (loop_body m r st) as [st1 [x|]] eqn:E.
    + injection H as <- _. eapply loop_body_no_marker; eassumption.
    + eapply IH; [|eassumption].
      eapply loop_body_no_marker; eassumption.
Qed.

Lemma sent_text_app (frames : list frame) (token : string) :
  sent_text (frames ++ [TokenFrame token])
  = (sent_text frames ++ token)%string.
Proof.
  unfold sent_text. rewrite map_app, join_app. simpl.
  now rewrite append_empty_r.
Qed.

(** While the loop goes on, the accumulated text is the text sent.  When
    the loop is left by the repetition check, by the wrap-up test or by
    the hard limit, the response that was being read has been accumulated
    and has not been sent. *)
Lemma loop_body_in_step (m : Z) (r : response) (st st' : loop_state)
    (how : option loop_exit) :
  in_step st "" ->
  loop_body m r st = (st', how) ->
  match how with
  | Some RepetitionBreak | Some WrapUpBreak | Some LimitBreak =>
      in_step st' (text r)
  | _ => in_step st' ""
  end.
Proof.
  unfold in_step. rewrite append_empty_r. intro Hst. unfold loop_body.
  repeat match goal with
         | |- context [if ?c then _ else _] => destruct c
         end;
    intro H; injection H as <- <-; simpl;
    rewrite ?sent_text_app, ?append_empty_r, ?Hst; reflexivity.
Qed.

Lemma stream_loop_in_step (m : Z) (engine : engine_stream) :
  forall st st' how,
    in_step st "" ->
    stream_loop m engine st = (st', how) ->
    match how with
    | RepetitionBreak | WrapUpBreak | LimitBreak =>
        exists token, in_step st' token
    | _ => in_step st' ""
    end.
Proof.
  induction engine as [|msg|r rest IH]; intros st st' how Hst H;
    simpl in H.
  - now injection H as <- <-.
  - now injection H as <- <-.
  - destruct (loop_body m r st) as [st1 [x|]] eqn:E.
    + injection H as <- <-.
      pose proof (loop_body_in_step _ _ _ _ _ Hst E) as Hx.
      destruct x; try exact Hx; now exists (text r).
    + apply (IH st1); [|assumption].
      exact (loop_body_in_step _ _ _ _ _ Hst E).
Qed.

(** An engine that raises after the responses [rs] rather than finishing
    is heard when, and only when, the loop reads [rs] to the end. *)
Lemma stream_loop_failure (m : Z) (rs : list response) (msg : string) :
  forall st st',
    stream_loop m (stream_of rs Finished) st = (st', Exhausted) ->
    stream_loop m (stream_of rs (Failure msg)) st = (st', Raised msg).
Proof.
  intros st st' H. now rewrite (stream_loop_app m rs _ st st' H).
Qed.

Lemma stream_loop_break_before_failure (m : Z) (rs : list response)
    (msg : string) :
  forall st st' how,
    stream_loop m (stream_of rs Finished) st = (st', how) ->
    how <> Exhausted ->
    stream_loop m (stream_of rs (Failure msg)) st = (st', how).
Proof.
  induction rs as [|r rs IH]; intros st st' how H Hne; simpl in *.
  - injection H as _ <-. now contradiction Hne.
  - destruct (loop_body m r st) as [st1 [x|]]; [assumption|].
    now apply IH.
Qed.

(** The loop on responses without marker, with a limit below the first
    check point: every response but the one that reaches the limit is
    yielded; that one is accumulated only. *)
Lemma stream_loop_to_limit (m : Z) (rs : list response) (final : response)
    (rest : engine_stream) :
  forall st,
    token_count st + Z.of_nat (List.length rs) + 1 = m ->
    m < 75 ->
    has_marker (full_response st ++ join (map text (rs ++ [final]))) = false ->
    Forall (fun r => finished_with_stop r = false) rs ->
    exists st',
      stream_loop m (stream_of (rs ++ [final]) rest) st = (st', LimitBreak)
      /\ full_response st'
         = (full_response st ++ join (map text (rs ++ [final])))%string
      /\ yielded st'
         = yielded st ++ map (fun r => TokenFrame (text r)) rs.
Proof.
  induction rs as [|r rs IH]; intros st Hcount Hm Hmark Hfin.
  - simpl in *. rewrite append_empty_r in Hmark.
    destruct (loop_body_limit m final st Hmark) as (st' & E & Hf & _ & Hy);
      [lia | lia |].
    exists st'. rewrite E, Hf, Hy, append_empty_r, app_nil_r. auto.
  - apply Forall_cons_iff in Hfin as [Hr Hrs].
    change (map text ((r :: rs) ++ [final]))
      with (text r :: map text (rs ++ [final])) in *.
    cbn [join fold_right] in *.
    fold (join (map text (rs ++ [final]))) in *.
    rewrite <- append_assoc in Hmark.
    cbn [List.length] in Hcount.
    destruct (loop_body_pass m r st) as (st1 & E & Hf & Hc & Hy);
      [ now apply has_marker_append in Hmark | lia | lia | assumption |].
    destruct (IH st1) as (st' & E' & Hf' & Hy');
      [ lia | assumption | now rewrite Hf | assumption |].
    exists st'. simpl. rewrite E. split; [exact E'|].
    rewrite Hf', Hy', Hf, Hy, <- append_assoc, <- app_assoc. auto.
Qed.

(** ** The event stream *)

(** C1.  With [max_tokens = n], [1 <= n < 75], an engine that never stops
    by itself and whose first [n] tokens form no marker is read up to its
    [n]-th response, whatever follows; the client receives the first
    [n - 1] tokens, one frame each, then the done frame.  The [n]-th token
    is not sent, yet it is part of the text that is persisted: the
    specification promises [n] token frames. *)
Theorem hard_limit_withholds_last_token
    (g : nat -> response) (n k : nat) (rest : engine_stream)
    (history : list Turn) :
  (1 <= n < 75)%nat ->
  (n <= k)%nat ->
  has_marker (join (map text (map g (seq 0 n)))) = false ->
  (forall i, finished_with_stop (g i) = false) ->
  generate_stream (Z.of_nat n) (unroll g k rest) history
  = (map (fun i => TokenFrame (text (g i))) (seq 0 (n - 1)) ++ [DoneFrame],
     persist_response (join (map text (map g (seq 0 n)))) history).
Proof.
  intros Hn Hk Hmark Hgo.
  rewrite (unroll_split g n k rest Hk). unfold unroll.
  set (rest' := stream_of _ rest). clearbody rest'.
  set (rs := map g (seq 0 (n - 1))).
  assert (Hseq : map g (seq 0 n) = rs ++ [g (n - 1)%nat]).
  { unfold rs. replace n with ((n - 1) + 1)%nat at 1 by lia.
    now rewrite seq_app, map_app. }
  rewrite Hseq in *.
  destruct (stream_loop_to_limit (Z.of_nat n) rs (g (n - 1)%nat) rest'
              initial_state) as (st & E & Hf & Hy).
  - unfold rs. rewrite length_map, length_seq. simpl. lia.
  - lia.
  - exact Hmark.
  - unfold rs. apply Forall_map, Forall_forall. intros i _. apply Hgo.
  - unfold generate_stream. rewrite E, Hf, Hy. simpl.
    unfold rs. now rewrite map_map.
Qed.

Lemma hard_limit_withholds_last_token_witness :
  generate_stream 10 (unroll two_words 20 Finished) []
  = (map (fun i => TokenFrame (text (two_words i))) (seq 0 9) ++ [DoneFrame],
     persist_response (join (map text (map two_words (seq 0 10)))) []).
Proof.
  apply (hard_limit_withholds_last_token two_words 10 20 Finished []).
  - lia.
  - lia.
  - vm_compute. reflexivity.
  - intro i. unfold two_words. destruct (Nat.even i); reflexivity.
Defined.

(** Whenever the loop is left by the repetition check, by the wrap-up
    test or by the hard limit, the text that goes to the history is the
    text sent to the client followed by a token that was not sent. *)
Lemma break_after_accumulation_withholds_token
    (m : Z) (engine : engine_stream) (st : loop_state) (how : loop_exit) :
  stream_loop m engine initial_state = (st, how) ->
  how = RepetitionBreak \/ how = WrapUpBreak \/ how = LimitBreak ->
  exists token,
    full_response st = (sent_text (yielded st) ++ token)%string.
Proof.
  intros H Hhow.
  assert (H0 : in_step initial_state "") by reflexivity.
  pose proof (stream_loop_in_step m engine _ _ _ H0 H) as Hs.
  destruct Hhow as [-> | [-> | ->]]; exact Hs.
Qed.

(** The first half of C2 holds: when the text accumulated from the
    responses [rs] and the next token come to contain a marker, the loop
    is left at once; that token is neither accumulated nor sent, and
    nothing is read after it. *)
Lemma stream_halts_before_marker_token
    (m : Z) (rs : list response) (r : response) (rest : engine_stream)
    (history : list Turn) (st : loop_state) :
  stream_loop m (stream_of rs Finished) initial_state = (st, Exhausted) ->
  has_marker (full_response st ++ text r) = true ->
  stream_loop m (stream_of (rs ++ [r]) rest) initial_state
  = (st, PatternBreak)
  /\ fst (generate_stream m (stream_of (rs ++ [r]) rest) history)
     = yielded st ++ [DoneFrame].
Proof.
  intros H Hmark.
  assert (E : stream_loop m (stream_of (rs ++ [r]) rest) initial_state
              = (st, PatternBreak)).
  { rewrite stream_of_app, (stream_loop_app m rs _ _ _ H). simpl.
    now rewrite (loop_body_marker m r st Hmark). }
  split; [exact E|]. unfold generate_stream. now rewrite E.
Qed.

(** C2.  The stream below halts at the token "User:", which is not sent.
    The text accumulated before it holds no marker of the loop, but the
    cleaning pass removes the template token and then the trailing "AI:"
    after it has already looked for "User:": the assistant Turn that is
    persisted is "User:".  In the same way "AI: AI:" is persisted as
    "AI:".  The specification says that the persisted Turn never ends
    with a role marker. *)
Theorem persisted_turn_may_end_with_role_marker :
  generate_stream 1024
    (stream_of [tok "User<|user|>:AI:"; tok "User:"] Finished) []
  = ([TokenFrame "User<|user|>:AI:"; DoneFrame],
     [ {| turn_role := assistant; content := "User:" |} ])
  /\ generate_stream 1024
       (stream_of [tok "AI: AI:"; tok "User:"] Finished) []
     = ([TokenFrame "AI: AI:"; DoneFrame],
        [ {| turn_role := assistant; content := "AI:" |} ]).
Proof.
  split; vm_compute; reflexivity.
Qed.

(** C4.  When the engine raises after the responses [rs], all of which
    the loop has read, the failure is caught: the frames already yielded
    are followed by one error frame and the done frame, and the history
    is the one before the call, whatever text was accumulated. *)
Theorem engine_failure_discards_partial_output
    (m : Z) (rs : list response) (msg : string) (history : list Turn)
    (st : loop_state) :
  stream_loop m (stream_of rs Finished) initial_state = (st, Exhausted) ->
  generate_stream m (stream_of rs (Failure msg)) history
  = (yielded st ++ [ErrorFrame msg; DoneFrame], history).
Proof.
  intro H. unfold generate_stream.
  now rewrite (stream_loop_failure m rs msg _ _ H).
Qed.

Lemma engine_failure_discards_partial_output_witness :
  generate_stream 1024
    (stream_of [tok "Once "; tok "upon "] (Failure "out of memory"))
    [ {| turn_role := user; content := "Tell me a story" |} ]
  = ([TokenFrame "Once "; TokenFrame "upon ";
      ErrorFrame "out of memory"; DoneFrame],
     [ {| turn_role := user; content := "Tell me a story" |} ]).
Proof.
  apply (engine_failure_discards_partial_output 1024
           [tok "Once "; tok "upon "] "out of memory"
           [ {| turn_role := user; content := "Tell me a story" |} ]
           {| full_response := "Once upon ";
              token_count := 2;
              last_50_tokens := ["Once "; "upon "];
              recent_tokens := ["Once "; "upon "];
              yielded := [TokenFrame "Once "; TokenFrame "upon "] |}).
  vm_compute. reflexivity.
Defined.

(** The same on any engine: a failure that is raised is reported and
    nothing is persisted. *)
Lemma raised_failure_is_reported
    (m : Z) (engine : engine_stream) (history : list Turn)
    (st : loop_state) (msg : string) :
  stream_loop m engine initial_state = (st, Raised msg) ->
  generate_stream m engine history
  = (yielded st ++ [ErrorFrame msg; DoneFrame], history).
Proof.
  intro H. unfold generate_stream. now rewrite H.
Qed.

(** Every event stream ends with the done frame. *)
Lemma stream_ends_with_done
    (m : Z) (engine : engine_stream) (history : list Turn) :
  exists frames,
    fst (generate_stream m engine history) = frames ++ [DoneFrame].
Proof.
  unfold generate_stream.
  destruct (stream_loop m engine initial_state) as [st how].
  destruct how; simpl;
    try (now exists (yielded st)).
  exists (yielded st ++ [ErrorFrame msg]). now rewrite <- app_assoc.
Qed.

(** A failure placed after a [break] is never raised. *)
Lemma failure_after_break_is_silent
    (m : Z) (rs : list response) (msg : string) (history : list Turn)
    (st : loop_state) (how : loop_exit) :
  stream_loop m (stream_of rs Finished) initial_state = (st, how) ->
  how <> Exhausted ->
  generate_stream m (stream_of rs (Failure msg)) history
  = generate_stream m (stream_of rs Finished) history.
Proof.
  intros H Hne. unfold generate_stream.
  now rewrite (stream_loop_break_before_failure m rs msg _ _ _ H Hne), H.
Qed.




(** C10.  When the text accumulated by the loop is empty or white space
    only, the history after [generate_stream] is the history before. *)
Theorem blank_response_is_not_persisted
    (m : Z) (engine : engine_stream) (history : list Turn)
    (st : loop_state) (how : loop_exit) :
  stream_loop m engine initial_state = (st, how) ->
  is_blank (full_response st) = true ->
  snd (generate_stream m engine history) = history.
Proof.
  intros H Hblank. apply strip_blank in Hblank.
  unfold generate_stream. rewrite H.
  destruct how; simpl; unfold persist_response; now rewrite ?Hblank.
Qed.

Lemma blank_response_is_not_persisted_witness :
  snd (generate_stream 1024
         (stream_of [tok "  "; tok LF; tok "User:"] Finished)
         [ {| turn_role := user; content := "Hi" |} ])
  = [ {| turn_role := user; content := "Hi" |} ].
Proof.
  apply (blank_response_is_not_persisted 1024
           (stream_of [tok "  "; tok LF; tok "User:"] Finished)
           [ {| turn_role := user; content := "Hi" |} ]
           {| full_response := ("  " ++ LF)%string;
              token_count := 2;
              last_50_tokens := ["  "; LF];
              recent_tokens := ["  "; LF];
              yielded := [TokenFrame "  "; TokenFrame LF] |}
           PatternBreak).
  - vm_compute. reflexivity.
  - vm_compute. reflexivity.
Defined.

(** ** History preparation *)

Section GenerateFacts.

Variable system_prompt_file : option string.
Variable summary_engine : string -> engine_stream.

Lemma compact_below_threshold (history : list Turn) :
  (List.length history <= 100)%nat ->
  compact system_prompt_file summary_engine history = history.
Proof.
  intro H. unfold compact.
  destruct (100 <? List.length history)%nat eqn:E; [|reflexivity].
  apply Nat.ltb_lt in E. lia.
Qed.

Lemma compact_above_threshold (history : list Turn) :
  (100 < List.length history)%nat ->
  compact system_prompt_file summary_engine history
  = summary_turn system_prompt_file summary_engine
      (but_last_items 50 history)
    :: last_items 50 history.
Proof.
  intro H. unfold compact.
  destruct (100 <? List.length history)%nat eqn:E;
    [|apply Nat.ltb_ge in E; lia].
  destruct (but_last_items 50 history) as [|t older] eqn:Eo;
    [|reflexivity].
  apply (f_equal (@List.length Turn)) in Eo.
  unfold but_last_items in Eo. rewrite length_firstn in Eo.
  simpl in Eo. lia.
Qed.

End GenerateFacts.

Lemma slices_rebuild (k : nat) (history : list Turn) :
  history = but_last_items k history ++ last_items k history.
Proof.
  unfold but_last_items, last_items. symmetry. apply firstn_skipn.
Qed.

(** C3.  Compaction leaves a history of at most 100 turns as it is, and
    turns a history of 101 turns into 51 turns: a system turn made from
    the 51 oldest ones, followed by the 50 latest ones unchanged and in
    their order. *)
Theorem compaction_at_threshold
    (system_prompt_file : option string)
    (summary_engine : string -> engine_stream) (history : list Turn) :
  ((List.length history <= 100)%nat ->
   compact system_prompt_file summary_engine history = history)
  /\ (List.length history = 101%nat ->
      exists older recent,
        history = older ++ recent
        /\ List.length recent = 50%nat
        /\ compact system_prompt_file summary_engine history
           = summary_turn system_prompt_file summary_engine older :: recent
        /\ turn_role (summary_turn system_prompt_file summary_engine older)
           = system
        /\ List.length (compact system_prompt_file summary_engine history)
           = 51%nat).
Proof.
  split; [apply compact_below_threshold|].
  intro H.
  exists (but_last_items 50 history), (last_items 50 history).
  assert (Hrecent : List.length (last_items 50 history) = 50%nat).
  { unfold last_items. rewrite length_skipn. lia. }
  rewrite compact_above_threshold by lia.
  repeat split.
  - apply slices_rebuild.
  - exact Hrecent.
  - simpl. now rewrite Hrecent.
Qed.

Lemma compaction_at_threshold_witness :
  let turn i := {| turn_role := if Nat.even i then user else assistant;
                   content := "..." |} in
  compact None (fun _ => Finished) (map turn (seq 0 100))
  = map turn (seq 0 100)
  /\ List.length (compact None (fun _ => Finished) (map turn (seq 0 101)))
     = 51%nat.
Proof.
  intro turn. split.
  - apply (proj1 (compaction_at_threshold None (fun _ => Finished)
                    (map turn (seq 0 100)))).
    vm_compute. lia.
  - destruct (proj2 (compaction_at_threshold None (fun _ => Finished)
                       (map turn (seq 0 101))))
      as (older & recent & _ & _ & _ & _ & H).
    + vm_compute. reflexivity.
    + exact H.
Defined.

(** The seed of the call is the one set by the first step. *)
Lemma prepare_seed (system_prompt_file : option string)
    (summary_engine : string -> engine_stream)
    (regenerate : bool) (user_input : string) (draw : Z) (s : session) :
  current_seed
    (prepare system_prompt_file summary_engine regenerate user_input draw s)
  = if regenerate then draw else current_seed s.
Proof.
  unfold prepare, begin_request. now destruct regenerate.
Qed.

(** When neither the reminder nor the compaction applies to what is left,
    the history prepared for a regeneration is the history without its
    last assistant turn. *)
Lemma regenerate_prepares_shorter_history
    (system_prompt_file : option string)
    (summary_engine : string -> engine_stream)
    (user_input : string) (draw : Z) (s : session)
    (before : list Turn) (last : Turn) :
  conversation_history s = before ++ [last] ->
  turn_role last = assistant ->
  (List.length before <= 100)%nat ->
  Nat.modulo (List.length before) 10 <> 0%nat ->
  conversation_history
    (prepare system_prompt_file summary_engine true user_input draw s)
  = before.
Proof.
  intros H Hrole Hlen Hmod. unfold prepare, begin_request.
  rewrite H, rev_unit. destruct last as [r c]. simpl in Hrole. subst r.
  cbn [conversation_history]. rewrite removelast_last.
  unfold add_reminder.
  destruct (Nat.modulo (List.length before) 10 =? 0)%nat eqn:E;
    [apply Nat.eqb_eq in E; contradiction|].
  simpl. now apply compact_below_threshold.
Qed.

(** C8 (amended).  On a regenerate request whose history ends with an
    assistant turn, the first step of [generate] removes that turn and
    no other, and the seed of the call is the number just drawn by the
    random generator. *)
Theorem regenerate_drops_last_assistant_turn
    (user_input : string) (draw : Z) (s : session)
    (before : list Turn) (last : Turn) :
  conversation_history s = before ++ [last] ->
  turn_role last = assistant ->
  begin_request true user_input draw s
  = {| conversation_history := before; current_seed := draw |}.
Proof.
  intros H Hrole. unfold begin_request. rewrite H, rev_unit.
  destruct last as [r c]. simpl in Hrole. subst r.
  now rewrite removelast_last.
Qed.

Lemma regenerate_drops_last_assistant_turn_witness :
  begin_request true "" 7
    {| conversation_history :=
         [ {| turn_role := user; content := "Hi" |};
           {| turn_role := assistant; content := "Hello" |} ];
       current_seed := 42 |}
  = {| conversation_history := [ {| turn_role := user; content := "Hi" |} ];
       current_seed := 7 |}.
Proof.
  apply (regenerate_drops_last_assistant_turn "" 7 _
           [ {| turn_role := user; content := "Hi" |} ]
           {| turn_role := assistant; content := "Hello" |});
    reflexivity.
Defined.

(** C8 as stated fails: the draw may be the seed of the call before. *)
Lemma regenerate_may_draw_the_same_seed :
  let s := {| conversation_history :=
                [ {| turn_role := user; content := "Hi" |};
                  {| turn_role := assistant; content := "Hello" |} ];
              current_seed := 42 |} in
  1 <= 42 <= 1000000
  /\ current_seed (begin_request true "" 42 s) = current_seed s.
Proof.
  simpl. split; [lia | reflexivity].
Qed.

(** ** The preference store *)

Lemma well_formed_is_accepted (v : json) :
  spec_well_formed v = true -> truthy v && is_dict v = true.
Proof.
  destruct v as [| | | | | |entries]; try discriminate.
  simpl. intro H. apply andb_true_iff in H as [_ H].
  apply Nat.eqb_eq in H. now rewrite H.
Qed.

(** The write ends on the content that [save_preferences] returns. *)
Lemma save_preferences_steps_end (body : outcome json) (store : file) :
  last (save_preferences_steps body store) store
  = snd (save_preferences body store).
Proof.
  unfold save_preferences_steps, save_preferences.
  destruct body as [v|e]; [|reflexivity].
  now destruct (negb (truthy v) || negb (is_dict v)).
Qed.

(** C5 (amended).  A request whose body cannot be decoded is answered
    with status 500, and a decoded payload that is falsy (null, the empty
    mapping, ...) or is not a mapping is rejected with status 400; in
    both cases the file is not opened and the store is left as it was.
    Every other payload, a non-empty mapping whatever its keys, and so
    every well-formed payload, replaces the content of the store.  The
    replacement is made in place and is not atomic: the file is first cut
    to nothing, a content that cannot be loaded, and the payload is
    written afterwards. *)
Theorem save_preferences_checks_mapping_only
    (body : outcome json) (store : file) :
  ((exists e, body = Raises e) ->
   save_preferences body store = (FailedToSave, store)
   /\ status_code FailedToSave = 500
   /\ save_preferences_steps body store = [])
  /\ (forall v, body = Returns v ->
      truthy v && is_dict v = false ->
      save_preferences body store = (InvalidPreferences, store)
      /\ status_code InvalidPreferences = 400
      /\ save_preferences_steps body store = [])
  /\ (forall v, body = Returns v ->
      truthy v && is_dict v = true \/ spec_well_formed v = true ->
      save_preferences body store = (Saved, Holds v)
      /\ save_preferences_steps body store = [Garbled ""; Holds v]
      /\ load_slider_preferences (Garbled "") = Raises JSONDecodeError).
Proof.
  split; [|split].
  - intros [e ->]. repeat split.
  - intros v -> H. unfold save_preferences, save_preferences_steps.
    apply andb_false_iff in H as [H|H]; rewrite H; simpl;
      rewrite ?orb_true_r; repeat split.
  - intros v -> H.
    assert (H' : truthy v && is_dict v = true)
      by (destruct H as [H|H]; [exact H | now apply well_formed_is_accepted]).
    apply andb_true_iff in H' as [H1 H2].
    unfold save_preferences, save_preferences_steps.
    rewrite H1, H2. repeat split.
Qed.

Lemma save_preferences_checks_mapping_only_witness :
  save_preferences (Raises BadRequest) (Holds default_preferences)
  = (FailedToSave, Holds default_preferences)
  /\ save_preferences (Returns (JDict [])) (Holds default_preferences)
     = (InvalidPreferences, Holds default_preferences)
  /\ save_preferences (Returns (JDict [("theme", JStr "dark")])) Absent
     = (Saved, Holds (JDict [("theme", JStr "dark")]))
  /\ save_preferences_steps (Returns default_preferences) Absent
     = [Garbled ""; Holds default_preferences].
Proof.
  split; [|split; [|split]].
  - apply (proj1 (save_preferences_checks_mapping_only
                    (Raises BadRequest) (Holds default_preferences))).
    exists BadRequest. reflexivity.
  - apply (proj1 (proj2 (save_preferences_checks_mapping_only
                           (Returns (JDict []))
                           (Holds default_preferences)))
             (JDict [])); reflexivity.
  - apply (proj2 (proj2 (save_preferences_checks_mapping_only
                           (Returns (JDict [("theme", JStr "dark")]))
                           Absent))
             (JDict [("theme", JStr "dark")])); [reflexivity|].
    left. reflexivity.
  - apply (proj2 (proj2 (save_preferences_checks_mapping_only
                           (Returns default_preferences) Absent))
             default_preferences); [reflexivity|].
    right. reflexivity.
Defined.

(** C5 as stated fails in three ways: a mapping without any of the five
    keys is saved; a body that cannot be decoded is answered with status
    500, which is no client error; and a well-formed payload is not
    written atomically, since the file is empty before it holds the new
    content. *)
Lemma save_is_neither_validated_nor_atomic :
  (spec_well_formed (JDict [("theme", JStr "dark")]) = false
   /\ save_preferences (Returns (JDict [("theme", JStr "dark")]))
        (Holds default_preferences)
      = (Saved, Holds (JDict [("theme", JStr "dark")])))
  /\ status_code
       (fst (save_preferences (Raises BadRequest)
               (Holds default_preferences)))
     = 500
  /\ (let payload :=
         JDict [ ("temperature", JFloat 1.2);
                 ("top_p", JFloat 0.95);
                 ("top_k", JInt 40);
                 ("repetition_penalty", JFloat 1.0);
                 ("max_tokens", JInt 256) ] in
      spec_well_formed payload = true
      /\ ~ spec_atomic (Holds default_preferences) (Holds payload)
            (save_preferences_steps (Returns payload)
               (Holds default_preferences))).
Proof.
  split; [split; reflexivity|]. split; [reflexivity|].
  split; [reflexivity|]. intro H.
  inversion H as [|content steps [Hold|Hnew] _]; discriminate.
Qed.

(** C6 (amended).  When the preference file is missing, loading returns
    the defaults; when the file is there but is not JSON, the decoding
    error is raised to the caller. *)
Theorem load_recovers_from_missing_file_only :
  load_slider_preferences Absent
  = Returns (JDict [ ("temperature", JFloat 0.7);
                     ("top_p", JFloat 0.9);
                     ("top_k", JInt 50);
                     ("repetition_penalty", JFloat 1.1);
                     ("max_tokens", JInt 1024) ])
  /\ forall raw, load_slider_preferences (Garbled raw) = Raises JSONDecodeError.
Proof.
  split; reflexivity.
Qed.

(** C6 as stated fails: a corrupt file does not give the defaults. *)
Lemma corrupt_file_is_not_recovered :
  load_slider_preferences (Garbled "{") <> Returns default_preferences.
Proof.
  discriminate.
Qed.

(** C7.  Loading after saving [p] returns [p], for every mapping [p],
    through the two functions and through the two endpoints when [p] is
    well formed; loading when there is no file returns the defaults. *)
Theorem save_then_load (p : json) (store : file) :
  load_slider_preferences (save_slider_preferences p store) = Returns p
  /\ (spec_well_formed p = true ->
      fst (save_preferences (Returns p) store) = Saved
      /\ get_preferences (snd (save_preferences (Returns p) store))
         = Returns p)
  /\ load_slider_preferences Absent
     = Returns (JDict [ ("temperature", JFloat 0.7);
                        ("top_p", JFloat 0.9);
                        ("top_k", JInt 50);
                        ("repetition_penalty", JFloat 1.1);
                        ("max_tokens", JInt 1024) ]).
Proof.
  split; [reflexivity | split; [|reflexivity]].
  intro H. apply well_formed_is_accepted, andb_true_iff in H as [H1 H2].
  unfold save_preferences. rewrite H1, H2. split; reflexivity.
Qed.

Lemma save_then_load_witness :
  let p := JDict [ ("temperature", JFloat 1.2);
                   ("top_p", JFloat 0.95);
                   ("top_k", JInt 40);
                   ("repetition_penalty", JFloat 1.0);
                   ("max_tokens", JInt 256) ] in
  fst (save_preferences (Returns p) (Garbled "{")) = Saved
  /\ get_preferences (snd (save_preferences (Returns p) (Garbled "{")))
     = Returns p.
Proof.
  intro p.
  apply (proj1 (proj2 (save_then_load p (Garbled "{")))).
  reflexivity.
Defined.

(** * Further properties of the session engine *)

(** ** The event stream, on any engine *)

Lemma sent_text_frames_app (a b : list frame) :
  sent_text (a ++ b) = (sent_text a ++ sent_text b)%string.
Proof.
  unfold sent_text. now rewrite map_app, join_app.
Qed.

Lemma count_token_frames_app (a b : list frame) :
  count_token_frames (a ++ b)
  = (count_token_frames a + count_token_frames b)%nat.
Proof.
  unfold count_token_frames. now rewrite filter_app, length_app.
Qed.

Lemma count_token_frames_le (a : list frame) :
  (count_token_frames a <= List.length a)%nat.
Proof.
  apply filter_length_le.
Qed.

Lemma loop_body_counted (m : Z) (r : response) (st st' : loop_state)
    (how : option loop_exit) :
  counted m st ->
  loop_body m r st = (st', how) ->
  match how with
  | None => counted m st'
  | Some LimitBreak =>
      Z.of_nat (List.length (yielded st')) <= Z.max 0 (m - 1)
      /\ token_count st' = Z.max 1 m
  | Some _ => Z.of_nat (List.length (yielded st')) <= Z.max 0 (m - 1)
  end.
Proof.
  unfold counted. intros [Hlen Hcount]. unfold loop_body.
  destruct (any_in stop_patterns _);
    [intro H; injection H as <- <-; lia|].
  destruct (any_in chat_template_tokens _);
    [intro H; injection H as <- <-; lia|].
  destruct (repetition_detected _ _);
    [intro H; injection H as <- <-; simpl; lia|].
  destruct (wrap_up_detected _ _ _);
    [intro H; injection H as <- <-; simpl; lia|].
  destruct (m <=? token_count st + 1) eqn:E.
  - apply Z.leb_le in E. intro H. injection H as <- <-. simpl. lia.
  - apply Z.leb_gt in E.
    destruct (finished_with_stop r); intro H; injection H as <- <-;
      simpl; rewrite length_app; simpl; lia.
Qed.

Lemma stream_loop_counted (m : Z) (engine : engine_stream) :
  forall st st' how,
    counted m st ->
    stream_loop m engine st = (st', how) ->
    Z.of_nat (List.length (yielded st')) <= Z.max 0 (m - 1)
    /\ (how = LimitBreak -> token_count st' = Z.max 1 m).
Proof.
  induction engine as [|msg|r rest IH]; intros st st' how Hst H;
    simpl in H.
  - injection H as <- <-. unfold counted in Hst. split; [lia|discriminate].
  - injection H as <- <-. unfold counted in Hst. split; [lia|discriminate].
  - destruct (loop_body m r st) as [st1 [x|]] eqn:E.
    + injection H as <- <-.
      pose proof (loop_body_counted _ _ _ _ _ Hst E) as Hx.
      destruct x; try (split; [exact Hx | discriminate]).
      split; [apply Hx | intros _; apply Hx].
    + apply (IH st1); [|assumption].
      exact (loop_body_counted _ _ _ _ _ Hst E).
Qed.

Lemma initial_state_counted (m : Z) : counted m initial_state.
Proof.
  unfold counted. simpl. lia.
Qed.

(** X1.  Whatever the engine does, [generate_stream] sends fewer token
    frames than [max_tokens]: at most [max_tokens - 1], and none when
    [max_tokens] is below 2. *)
Theorem token_frames_stay_below_limit
    (max_tokens : Z) (engine : engine_stream) (history : list Turn) :
  Z.of_nat (count_token_frames
              (fst (generate_stream max_tokens engine history)))
  <= Z.max 0 (max_tokens - 1).
Proof.
  unfold generate_stream.
  destruct (stream_loop max_tokens engine initial_state) as [st how] eqn:E.
  destruct (stream_loop_counted _ _ _ _ _
              (initial_state_counted max_tokens) E) as [Hlen _].
  pose proof (count_token_frames_le (yielded st)) as Hle.
  destruct how; simpl; rewrite count_token_frames_app;
    unfold count_token_frames at 2; simpl; lia.
Qed.

(** X2.  When the loop is left by the hard limit, exactly [max_tokens]
    tokens were accumulated (one when [max_tokens] is below 1); it is
    never left by the repetition check before token 75 nor by the wrap-up
    test before token 768. *)
Theorem breaks_happen_at_their_counts
    (max_tokens : Z) (engine : engine_stream) (st : loop_state)
    (how : loop_exit) :
  stream_loop max_tokens engine initial_state = (st, how) ->
  (how = LimitBreak -> token_count st = Z.max 1 max_tokens)
  /\ (how = RepetitionBreak ->
      75 <= token_count st /\ token_count st mod 25 = 0)
  /\ (how = WrapUpBreak -> 768 <= token_count st).
Proof.
  intro H. split.
  - exact (proj2 (stream_loop_counted _ _ _ _ _
                    (initial_state_counted max_tokens) H)).
  - revert H. generalize initial_state.
    induction engine as [|msg|r rest IH]; intros st0 H; simpl in H.
    + injection H as _ <-. split; discriminate.
    + injection H as _ <-. split; discriminate.
    + destruct (loop_body max_tokens r st0) as [st1 [x|]] eqn:E;
        [|exact (IH _ H)].
      injection H as <- <-. revert E. unfold loop_body.
      destruct (any_in stop_patterns _);
        [intro E; injection E as _ <-; split; discriminate|].
      destruct (any_in chat_template_tokens _);
        [intro E; injection E as _ <-; split; discriminate|].
      destruct (repetition_detected _ _) eqn:Er.
      * intro E. injection E as <- <-. split; [|discriminate].
        intros _. simpl.
        destruct (Z_lt_le_dec (token_count st0 + 1) 75) as [Hlt|Hge].
        -- rewrite (repetition_quiet _ _ Hlt) in Er. discriminate.
        -- split; [exact Hge|].
           unfold repetition_detected in Er.
           apply andb_true_iff in Er as [Er _].
           apply andb_true_iff in Er as [_ Er].
           now apply Z.eqb_eq in Er.
      * destruct (wrap_up_detected _ _ _) eqn:Ew.
        -- intro E. injection E as <- <-. split; [discriminate|].
           intros _. simpl.
           destruct (Z_lt_le_dec (token_count st0 + 1) 768) as [Hlt|Hge];
             [|exact Hge].
           rewrite (wrap_up_quiet _ _ _ Hlt) in Ew. discriminate.
        -- destruct (max_tokens <=? token_count st0 + 1);
             [intro E; injection E as _ <-; split; discriminate|].
           destruct (finished_with_stop r); intro E;
             [injection E as _ <-; split; discriminate | discriminate E].
Qed.

Lemma breaks_happen_at_their_counts_witness :
  token_count
    (fst (stream_loop 3 (unroll two_words 9 Finished) initial_state)) = 3.
Proof.
  destruct (stream_loop 3 (unroll two_words 9 Finished) initial_state)
    as [st how] eqn:E.
  pose proof (proj1 (breaks_happen_at_their_counts 3 _ st how E)) as H.
  vm_compute in E. injection E as <- <-. simpl.
  exact (H eq_refl).
Defined.

Lemma initial_state_in_step : in_step initial_state "".
Proof.
  reflexivity.
Qed.

Lemma sent_text_closing (frames closing : list frame) :
  Forall (fun f => is_token_frame f = false) closing ->
  sent_text (frames ++ closing) = sent_text frames.
Proof.
  intro H. rewrite sent_text_frames_app.
  replace (sent_text closing) with "".
  - apply append_empty_r.
  - induction H as [|f closing Hf _ IH]; [reflexivity|].
    unfold sent_text in *. simpl. rewrite <- IH.
    now destruct f.
Qed.

(** X3.  Whatever the engine does, the text made of the tokens sent to
    the client holds none of the stop patterns and none of the chat
    template tokens of the loop. *)
Theorem sent_text_has_no_marker
    (max_tokens : Z) (engine : engine_stream) (history : list Turn) :
  has_marker (sent_text (fst (generate_stream max_tokens engine history)))
  = false.
Proof.
  unfold generate_stream.
  destruct (stream_loop max_tokens engine initial_state) as [st how] eqn:E.
  assert (Hfull : has_marker (full_response st) = false).
  { apply (stream_loop_no_marker max_tokens engine initial_state st how);
      [vm_compute; reflexivity | exact E]. }
  assert (Hsent : exists token,
             full_response st = (sent_text (yielded st) ++ token)%string).
  { pose proof (stream_loop_in_step _ _ _ _ _ initial_state_in_step E) as Hs.
    destruct how; try exact Hs; now exists "". }
  destruct Hsent as [token Hsent]. rewrite Hsent in Hfull.
  apply has_marker_append in Hfull.
  destruct how; simpl; rewrite sent_text_closing; trivial;
    repeat constructor.
Qed.

(** X4.  When the loop is left by a marker, by the engine saying stop or
    by the end of the engine, what goes to the history is computed from
    exactly the text that was sent. *)
Theorem stored_text_is_sent_text
    (max_tokens : Z) (engine : engine_stream) (history : list Turn)
    (st : loop_state) (how : loop_exit) :
  stream_loop max_tokens engine initial_state = (st, how) ->
  how = PatternBreak \/ how = FinishBreak \/ how = Exhausted ->
  snd (generate_stream max_tokens engine history)
  = persist_response
      (sent_text (fst (generate_stream max_tokens engine history)))
      history.
Proof.
  intros H Hhow. unfold generate_stream. rewrite H.
  pose proof (stream_loop_in_step _ _ _ _ _ initial_state_in_step H) as Hs.
  destruct Hhow as [-> | [-> | ->]]; simpl;
    rewrite sent_text_closing by (repeat constructor);
    unfold in_step in Hs; rewrite append_empty_r in Hs; now rewrite Hs.
Qed.

Lemma stored_text_is_sent_text_witness :
  let engine :=
    stream_of [tok "Hi "; {| text := "there."; finish_reason := Some "stop" |};
               tok " More"] Finished in
  generate_stream 1024 engine []
  = ([TokenFrame "Hi "; TokenFrame "there."; DoneFrame],
     [ {| turn_role := assistant; content := "Hi there." |} ])
  /\ snd (generate_stream 1024 engine [])
     = persist_response (sent_text (fst (generate_stream 1024 engine []))) [].
Proof.
  intro engine. split; [vm_compute; reflexivity|].
  apply (stored_text_is_sent_text 1024 engine []
           {| full_response := "Hi there.";
              token_count := 2;
              last_50_tokens := ["Hi "; "there."];
              recent_tokens := ["Hi "; "there."];
              yielded := [TokenFrame "Hi "; TokenFrame "there."] |}
           FinishBreak).
  - vm_compute. reflexivity.
  - right. left. reflexivity.
Defined.

(** X5.  Once the loop is left by a [break], the engine is not read any
    further: whatever it would still produce, responses or a failure, the
    frames and the history are the same. *)
Theorem nothing_is_read_after_a_break
    (max_tokens : Z) (rs : list response) (rest : engine_stream)
    (history : list Turn) (st : loop_state) (how : loop_exit) :
  stream_loop max_tokens (stream_of rs Finished) initial_state = (st, how) ->
  how <> Exhausted ->
  generate_stream max_tokens (stream_of rs rest) history
  = generate_stream max_tokens (stream_of rs Finished) history.
Proof.
  intros H Hne.
  assert (E : forall st0,
             stream_loop max_tokens (stream_of rs Finished) st0 = (st, how) ->
             stream_loop max_tokens (stream_of rs rest) st0 = (st, how)).
  { clear H. induction rs as [|r rs IH]; intros st0 H; simpl in *.
    - injection H as _ <-. now contradiction Hne.
    - destruct (loop_body max_tokens r st0) as [st1 [x|]];
        [assumption | now apply IH]. }
  unfold generate_stream. now rewrite (E _ H), H.
Qed.

Lemma nothing_is_read_after_a_break_witness :
  generate_stream 1024
    (stream_of [tok "Fine."; tok " User:"] (Failure "device lost")) []
  = generate_stream 1024 (stream_of [tok "Fine."; tok " User:"] Finished) [].
Proof.
  apply (nothing_is_read_after_a_break 1024 [tok "Fine."; tok " User:"]
           (Failure "device lost") []
           {| full_response := "Fine.";
              token_count := 1;
              last_50_tokens := ["Fine."];
              recent_tokens := ["Fine."];
              yielded := [TokenFrame "Fine."] |}
           PatternBreak).
  - vm_compute. reflexivity.
  - discriminate.
Defined.

(** ** Cleaning the response *)

Lemma lstrip_suffix (s : string) : exists pre, s = (pre ++ lstrip s)%string.
Proof.
  induction s as [|c s [pre IH]]; [now exists ""|].
  simpl. destruct (isspace c).
  - exists (String c pre). simpl. now rewrite <- IH.
  - now exists "".
Qed.

Lemma rstrip_prefix (s : string) : exists post, s = (rstrip s ++ post)%string.
Proof.
  unfold rstrip. destruct (lstrip_suffix (reversed s)) as [pre H].
  exists (reversed pre).
  rewrite <- reversed_app, <- H. symmetry. apply reversed_involutive.
Qed.

(** The stripped text lies inside the text. *)
Lemma strip_infix (s : string) :
  exists pre post, s = (pre ++ strip s ++ post)%string.
Proof.
  unfold strip. destruct (lstrip_suffix s) as [pre H].
  destruct (rstrip_prefix (lstrip s)) as [post H'].
  exists pre, post. now rewrite <- H', <- H.
Qed.

Lemma contains_strip (s p : string) :
  contains (strip s) p = true -> contains s p = true.
Proof.
  intro H. apply contains_spec in H as (a & b & H).
  destruct (strip_infix s) as (pre & post & Hs).
  apply contains_spec. exists (pre ++ a)%string, (b ++ post)%string.
  rewrite Hs at 1. rewrite H. now rewrite !append_assoc.
Qed.

Lemma any_in_strip (patterns : list string) (s : string) :
  any_in patterns s = false -> any_in patterns (strip s) = false.
Proof.
  unfold any_in. intro H.
  destruct (existsb (contains (strip s)) patterns) eqn:E; [|reflexivity].
  apply existsb_exists in E as (p & Hp & Hc).
  rewrite <- H. symmetry. apply existsb_exists.
  exists p. split; [assumption | now apply contains_strip].
Qed.

Lemma any_in_member (patterns : list string) (s p : string) :
  any_in patterns s = false -> In p patterns -> contains s p = false.
Proof.
  unfold any_in. intros H Hp.
  destruct (contains s p) eqn:E; [|reflexivity].
  rewrite <- H. symmetry. apply existsb_exists. now exists p.
Qed.

(** Removing a text that does not occur changes nothing. *)
Lemma remove_absent (s old : string) :
  contains s old = false -> remove s old = s.
Proof.
  unfold remove. induction s as [|c s IH]; [reflexivity|].
  cbn [contains]. intro H. apply orb_false_iff in H as [H1 H2].
  cbn [remove_from]. rewrite H1. now rewrite (IH H2).
Qed.

Lemma remove_all_absent (tokens : list string) (s : string) :
  any_in tokens s = false -> fold_left remove tokens s = s.
Proof.
  induction tokens as [|t tokens IH]; [reflexivity|].
  unfold any_in. simpl. intro H. apply orb_false_iff in H as [H1 H2].
  rewrite (remove_absent _ _ H1). now apply IH.
Qed.

Lemma endswith_contains (s p : string) :
  endswith s p = true -> contains s p = true.
Proof.
  intro H. apply endswith_spec in H as [t ->].
  apply contains_spec. exists t, "". now rewrite append_empty_r.
Qed.

(** X6.  A reply is stored as it was accumulated, without the white space
    around it, when it is not blank, holds none of the three template
    tokens the loop does not watch for, and does not end with "AI:". *)
Theorem ordinary_reply_is_stored_verbatim
    (max_tokens : Z) (engine : engine_stream) (history : list Turn)
    (st : loop_state) (how : loop_exit) :
  stream_loop max_tokens engine initial_state = (st, how) ->
  (forall msg, how <> Raised msg) ->
  is_blank (full_response st) = false ->
  any_in ["<|assistant|>"; "<|user|>"; "<|system|>"] (full_response st)
  = false ->
  endswith (strip (full_response st)) "AI:" = false ->
  snd (generate_stream max_tokens engine history)
  = history ++ [ {| turn_role := assistant;
                    content := strip (full_response st) |} ].
Proof.
  intros H Hok Hblank Hextra Hai.
  assert (Hmark : has_marker (full_response st) = false).
  { apply (stream_loop_no_marker max_tokens engine initial_state st how);
      [vm_compute; reflexivity | exact H]. }
  unfold has_marker in Hmark. apply orb_false_iff in Hmark as [Hstop Htpl].
  assert (Hclean : clean_response (full_response st)
                   = strip (full_response st)).
  { unfold clean_response.
    rewrite remove_all_absent.
    - assert (Hrole : forall p, In p ["Assistant:"; "User:"; "Human:"] ->
                 endswith (strip (full_response st)) p = false).
      { intros p Hp.
        destruct (endswith (strip (full_response st)) p) eqn:E;
          [|reflexivity].
        apply endswith_contains, contains_strip in E.
        rewrite (any_in_member stop_patterns _ p Hstop) in E;
          [discriminate|].
        simpl in Hp. simpl. intuition. }
      cbn [fold_left role_patterns].
      rewrite (Hrole "Assistant:"), (Hrole "User:"), (Hrole "Human:"), Hai
        by (simpl; auto).
      reflexivity.
    - apply any_in_strip.
      change template_tokens
        with (chat_template_tokens
                ++ ["<|assistant|>"; "<|user|>"; "<|system|>"]).
      unfold any_in in *. rewrite existsb_app.
      now rewrite Htpl, Hextra. }
  unfold generate_stream. rewrite H.
  assert (Hp : persist_response (full_response st) history
               = history ++ [ {| turn_role := assistant;
                                 content := strip (full_response st) |} ]).
  { unfold persist_response. rewrite Hclean.
    destruct (strip (full_response st)) eqn:E; [|reflexivity].
    apply strip_blank in E. congruence. }
  destruct how; simpl; try exact Hp.
  now contradiction (Hok msg).
Qed.

Lemma ordinary_reply_is_stored_verbatim_witness :
  snd (generate_stream 1024
         (stream_of [tok " Once"; tok " upon a time. "] Finished)
         [ {| turn_role := user; content := "Go on" |} ])
  = [ {| turn_role := user; content := "Go on" |};
      {| turn_role := assistant; content := "Once upon a time." |} ].
Proof.
  apply (ordinary_reply_is_stored_verbatim 1024
           (stream_of [tok " Once"; tok " upon a time. "] Finished)
           [ {| turn_role := user; content := "Go on" |} ]
           {| full_response := " Once upon a time. ";
              token_count := 2;
              last_50_tokens := [" Once"; " upon a time. "];
              recent_tokens := [" Once"; " upon a time. "];
              yielded := [TokenFrame " Once"; TokenFrame " upon a time. "] |}
           Exhausted).
  - vm_compute. reflexivity.
  - discriminate.
  - vm_compute. reflexivity.
  - vm_compute. reflexivity.
  - vm_compute. reflexivity.
Defined.

(** ** Compaction, reminder and prompt *)

Lemma last_items_app {A} (k : nat) (a b : list A) :
  (List.length b <= k)%nat ->
  last_items k (a ++ b) = last_items (k - List.length b) a ++ b.
Proof.
  intro H. unfold last_items. rewrite length_app, skipn_app.
  replace (List.length a + List.length b - k - List.length a)%nat
    with 0%nat by lia.
  simpl. f_equal. f_equal. lia.
Qed.

Lemma last_items_length {A} (k : nat) (l : list A) :
  List.length (last_items k l) = Nat.min k (List.length l).
Proof.
  unfold last_items. rewrite length_skipn. lia.
Qed.

Lemma compact_length (system_prompt_file : option string)
    (summary_engine : string -> engine_stream) (history : list Turn) :
  (List.length (compact system_prompt_file summary_engine history)
   <= 100)%nat
  /\ ((100 < List.length history)%nat ->
      List.length (compact system_prompt_file summary_engine history)
      = 51%nat).
Proof.
  assert (Habove : (100 < List.length history)%nat ->
            List.length (compact system_prompt_file summary_engine history)
            = 51%nat).
  { intro H. rewrite compact_above_threshold by assumption.
    simpl. rewrite last_items_length. lia. }
  split; [|exact Habove].
  destruct (Nat.le_gt_cases (List.length history) 100) as [H|H].
  - now rewrite compact_below_threshold.
  - rewrite (Habove H). lia.
Qed.

(** X7.  Compaction never hands over more than 100 turns.  Whenever it
    applies, however long the history is, the result has 51 turns: one
    system turn summarising all but the last 50 turns, then the last 50
    turns. *)
Theorem compaction_bounds_history
    (system_prompt_file : option string)
    (summary_engine : string -> engine_stream) (history : list Turn) :
  (List.length (compact system_prompt_file summary_engine history)
   <= 100)%nat
  /\ ((100 < List.length history)%nat ->
      compact system_prompt_file summary_engine history
      = summary_turn system_prompt_file summary_engine
          (but_last_items 50 history)
        :: last_items 50 history
      /\ List.length (compact system_prompt_file summary_engine history)
         = 51%nat).
Proof.
  split; [apply compact_length|].
  intro H. split; [now apply compact_above_threshold|].
  now apply compact_length.
Qed.

Lemma compaction_bounds_history_witness :
  List.length
    (compact None (fun _ => Failure "no engine")
       (repeat {| turn_role := user; content := "again" |} 250))
  = 51%nat.
Proof.
  apply (proj2 (compaction_bounds_history None (fun _ => Failure "no engine")
                  (repeat {| turn_role := user; content := "again" |} 250))).
  rewrite repeat_length. lia.
Defined.

Lemma prepared_history_ends_with_message
    (system_prompt_file : option string)
    (summary_engine : string -> engine_stream)
    (user_input : string) (draw : Z) (s : session) :
  let message := {| turn_role := user; content := user_input |} in
  let reminder :=
    {| turn_role := system;
       content := ("REMINDER: " ++ load_system_prompt system_prompt_file)%string |} in
  exists front,
    conversation_history
      (prepare system_prompt_file summary_engine false user_input draw s)
    = front ++ [message]
    \/ conversation_history
         (prepare system_prompt_file summary_engine false user_input draw s)
       = front ++ [message; reminder].
Proof.
  intros message reminder. unfold prepare, begin_request.
  cbn [conversation_history].
  fold message. set (h := conversation_history s).
  assert (Hcompact : forall tail,
             (List.length tail <= 50)%nat ->
             exists front,
               compact system_prompt_file summary_engine (h ++ tail)
               = front ++ tail).
  { intros tail Htail.
    destruct (Nat.le_gt_cases (List.length (h ++ tail)) 100) as [H|H].
    - exists h. now apply compact_below_threshold.
    - rewrite compact_above_threshold by assumption.
      rewrite last_items_app by assumption.
      eexists. rewrite app_comm_cons. reflexivity. }
  unfold add_reminder. fold reminder.
  destruct ((Nat.modulo (List.length (h ++ [message])) 10 =? 0)%nat
            && (0 <? List.length (h ++ [message]))%nat).
  - rewrite <- app_assoc. simpl.
    destruct (Hcompact [message; reminder]) as [front ->]; [simpl; lia|].
    exists front. now right.
  - destruct (Hcompact [message]) as [front ->]; [simpl; lia|].
    exists front. now left.
Qed.

(** X8.  The message of a request that is not a regeneration is always
    part of the history from which the prompt is made: it is its last
    turn, or the last but one when a reminder follows it, whether or not
    the history was compacted. *)
Theorem user_message_survives_preparation
    (system_prompt_file : option string)
    (summary_engine : string -> engine_stream)
    (user_input : string) (draw : Z) (s : session) :
  let message := {| turn_role := user; content := user_input |} in
  let reminder :=
    {| turn_role := system;
       content := ("REMINDER: " ++ load_system_prompt system_prompt_file)%string |} in
  exists front,
    conversation_history
      (prepare system_prompt_file summary_engine false user_input draw s)
    = front ++ [message]
    \/ conversation_history
         (prepare system_prompt_file summary_engine false user_input draw s)
       = front ++ [message; reminder].
Proof.
  apply prepared_history_ends_with_message.
Qed.

(** X9.  The reminder step keeps every turn in place and adds at most
    one system turn at the end; the history it returns, when not empty,
    never has a length that is a multiple of 10. *)
Theorem reminder_breaks_multiples_of_ten
    (system_prompt_file : option string) (history : list Turn) :
  firstn (List.length history) (add_reminder system_prompt_file history)
  = history
  /\ (List.length (add_reminder system_prompt_file history)
      <= S (List.length history))%nat
  /\ (history <> [] ->
      Nat.modulo (List.length (add_reminder system_prompt_file history)) 10
      <> 0%nat).
Proof.
  unfold add_reminder.
  destruct (Nat.modulo (List.length history) 10 =? 0)%nat eqn:E;
    cbn [andb].
  - apply Nat.eqb_eq in E.
    destruct (0 <? List.length history)%nat eqn:E0.
    + rewrite firstn_app, firstn_all, Nat.sub_diag, length_app.
      cbn [firstn List.length]. rewrite app_nil_r, Nat.add_1_r.
      repeat split; [lia|]. intros _.
      pose proof (Nat.div_mod_eq (List.length history) 10) as H1.
      pose proof (Nat.div_mod_eq (S (List.length history)) 10) as H2.
      pose proof (Nat.mod_upper_bound (S (List.length history)) 10) as H3.
      lia.
    + apply Nat.ltb_ge in E0. rewrite firstn_all. repeat split; [lia|].
      intro H. destruct history; [now contradiction H | simpl in E0; lia].
  - apply Nat.eqb_neq in E. rewrite firstn_all. repeat split; [lia|].
    intros _. exact E.
Qed.

Lemma reminder_breaks_multiples_of_ten_witness :
  Nat.modulo
    (List.length
       (add_reminder None
          (repeat {| turn_role := user; content := "more" |} 10)))
    10
  <> 0%nat.
Proof.
  apply (proj2 (proj2 (reminder_breaks_multiples_of_ten None
                         (repeat {| turn_role := user; content := "more" |}
                                 10)))).
  discriminate.
Defined.

Lemma collect_text_failure (rs : list response) (msg summary : string) :
  collect_text (stream_of rs (Failure msg)) summary = None.
Proof.
  revert summary. induction rs as [|r rs IH]; intro summary;
    [reflexivity | apply IH].
Qed.

Lemma collect_text_finished (rs : list response) (summary : string) :
  collect_text (stream_of rs Finished) summary
  = Some (summary ++ join (map text rs))%string.
Proof.
  revert summary. induction rs as [|r rs IH]; intro summary; simpl.
  - now rewrite append_empty_r.
  - now rewrite IH, append_assoc.
Qed.

(** X10.  A failure of the engine during summarisation, after any number
    of chunks, does not fail the compaction: the chunks are dropped and
    the summary is the fixed placeholder.  When the engine finishes, the
    summary is the stripped concatenation of its chunks. *)
Theorem summary_falls_back_to_placeholder
    (summary_engine : string -> engine_stream)
    (messages_to_summarize : list Turn) (rs : list response) :
  ((exists msg, forall prompt,
       summary_engine prompt = stream_of rs (Failure msg)) ->
   summarize_context summary_engine messages_to_summarize
   = "Previous story context continues...")
  /\ ((forall prompt, summary_engine prompt = stream_of rs Finished) ->
      summarize_context summary_engine messages_to_summarize
      = strip (join (map text rs))).
Proof.
  unfold summarize_context. split.
  - intros [msg H]. now rewrite H, collect_text_failure.
  - intro H. now rewrite H, collect_text_finished.
Qed.

Lemma summary_falls_back_to_placeholder_witness :
  summarize_context
    (fun _ => stream_of [tok "The hero "] (Failure "out of memory"))
    [ {| turn_role := user; content := "Begin" |} ]
  = "Previous story context continues..."
  /\ summarize_context
       (fun _ => stream_of [tok " The hero "; tok "left. "] Finished)
       [ {| turn_role := user; content := "Begin" |} ]
     = "The hero left.".
Proof.
  split.
  - apply (proj1 (summary_falls_back_to_placeholder
                    (fun _ => stream_of [tok "The hero "]
                                (Failure "out of memory"))
                    [ {| turn_role := user; content := "Begin" |} ]
                    [tok "The hero "])).
    exists "out of memory". reflexivity.
  - apply (proj2 (summary_falls_back_to_placeholder
                    (fun _ => stream_of [tok " The hero "; tok "left. "]
                                Finished)
                    [ {| turn_role := user; content := "Begin" |} ]
                    [tok " The hero "; tok "left. "])).
    reflexivity.
Defined.

Lemma transcript_skips_system (history : list Turn) (context_text : string) :
  fold_left transcript_line (filter not_system history) context_text
  = fold_left transcript_line history context_text.
Proof.
  revert context_text.
  induction history as [|[r c] history IH]; intro context_text;
    [reflexivity|].
  destruct r; simpl; apply IH.
Qed.

(** X11.  System turns do not reach the summariser: the summary of a
    list of turns is the summary of its user and assistant turns, so an
    earlier summary turn or a reminder among them is left out. *)
Theorem summary_ignores_system_turns
    (summary_engine : string -> engine_stream)
    (messages_to_summarize : list Turn) :
  summarize_context summary_engine (filter not_system messages_to_summarize)
  = summarize_context summary_engine messages_to_summarize.
Proof.
  unfold summarize_context. now rewrite transcript_skips_system.
Qed.

(** X12.  In the fallback format the prompt is made of the user and
    assistant turns only: the reminder does not change it, and after a
    compaction it is the prompt of the last 50 turns, without the
    summary. *)
Theorem fallback_prompt_ignores_system_turns
    (system_prompt_file : option string)
    (summary_engine : string -> engine_stream) (history : list Turn) :
  fallback_prompt system_prompt_file (filter not_system history)
  = fallback_prompt system_prompt_file history
  /\ fallback_prompt system_prompt_file
       (add_reminder system_prompt_file history)
     = fallback_prompt system_prompt_file history
  /\ ((100 < List.length history)%nat ->
      fallback_prompt system_prompt_file
        (compact system_prompt_file summary_engine history)
      = fallback_prompt system_prompt_file (last_items 50 history)).
Proof.
  unfold fallback_prompt. split; [|split].
  - now rewrite transcript_skips_system.
  - unfold add_reminder.
    destruct ((Nat.modulo (List.length history) 10 =? 0)%nat
              && (0 <? List.length history)%nat); [|reflexivity].
    now rewrite fold_left_app.
  - intro H. now rewrite compact_above_threshold by assumption.
Qed.

Lemma fallback_prompt_ignores_system_turns_witness :
  let history := repeat {| turn_role := user; content := "more" |} 120 in
  fallback_prompt None (compact None (fun _ => Finished) history)
  = fallback_prompt None (last_items 50 history).
Proof.
  intro history.
  apply (proj2 (proj2 (fallback_prompt_ignores_system_turns
                         None (fun _ => Finished) history))).
  unfold history. rewrite repeat_length. lia.
Defined.

(** ** The session over many requests *)

Lemma persist_response_cases (full : string) (history : list Turn) :
  persist_response full history = history
  \/ exists reply,
       turn_role reply = assistant
       /\ persist_response full history = history ++ [reply].
Proof.
  unfold persist_response. destruct (strip full); [now left|].
  right. eexists. split; [|reflexivity]. reflexivity.
Qed.

Lemma generate_stream_history (max_tokens : Z) (engine : engine_stream)
    (history : list Turn) :
  snd (generate_stream max_tokens engine history) = history
  \/ exists reply,
       turn_role reply = assistant
       /\ snd (generate_stream max_tokens engine history)
          = history ++ [reply].
Proof.
  unfold generate_stream.
  destruct (stream_loop max_tokens engine initial_state) as [st how].
  destruct how; simpl; try apply persist_response_cases. now left.
Qed.

Lemma generate_history (system_prompt_file : option string)
    (summary_engine : string -> engine_stream)
    (regenerate : bool) (user_input : string) (max_tokens draw : Z)
    (engine : engine_stream) (s : session) :
  conversation_history
    (snd (generate system_prompt_file summary_engine true regenerate
            user_input max_tokens draw engine s))
  = snd (generate_stream max_tokens engine
           (conversation_history
              (prepare system_prompt_file summary_engine regenerate
                 user_input draw s))).
Proof.
  unfold generate.
  now destruct (generate_stream max_tokens engine _).
Qed.

Lemma pop_at_length {A} (i : nat) (l : list A) :
  (List.length (pop_at i l) <= List.length l)%nat.
Proof.
  unfold pop_at. rewrite length_app, length_firstn, length_skipn. lia.
Qed.

Lemma delete_message_length (message_index : option Z)
    (history : list Turn) :
  (List.length (fst (delete_message message_index history))
   <= List.length history)%nat.
Proof.
  unfold delete_message. destruct message_index as [i|]; [|simpl; lia].
  destruct ((0 <=? i) && (i <? Z.of_nat (List.length history)));
    simpl; [apply pop_at_length | lia].
Qed.

Lemma delete_last_message_length (history : list Turn) :
  (List.length (fst (delete_last_message history))
   <= List.length history)%nat.
Proof.
  unfold delete_last_message. destruct history as [|t history]; [simpl; lia|].
  cbn [fst]. rewrite removelast_firstn_len, length_firstn. lia.
Qed.

Lemma serve_one_bound (s : session) (op : operation) :
  (List.length (conversation_history s) <= 101)%nat ->
  (List.length (conversation_history (serve_one s op)) <= 101)%nat.
Proof.
  intro H. destruct op as [spf se loaded regen ui m draw engine|i| |draw];
    simpl.
  - destruct loaded; [|exact H].
    rewrite generate_history. unfold prepare. cbn [conversation_history].
    pose proof (proj1 (compact_length spf se
                         (add_reminder spf
                            (conversation_history
                               (begin_request regen ui draw s))))) as Hc.
    destruct (generate_stream_history m engine
                (compact spf se
                   (add_reminder spf
                      (conversation_history
                         (begin_request regen ui draw s)))))
      as [-> | (reply & _ & ->)].
    + lia.
    + rewrite length_app. simpl. lia.
  - pose proof (delete_message_length i (conversation_history s)). lia.
  - pose proof (delete_last_message_length (conversation_history s)). lia.
  - exact H.
Qed.

(** X13.  Whatever requests are served after the start, in whatever
    order and with whatever engine, the conversation history never holds
    more than 101 turns. *)
Theorem history_stays_bounded (ops : list operation) (draw : Z) :
  (List.length (conversation_history (serve ops (start draw))) <= 101)%nat.
Proof.
  unfold serve.
  assert (H : (List.length (conversation_history (start draw)) <= 101)%nat)
    by (simpl; lia).
  revert H. generalize (start draw).
  induction ops as [|op ops IH]; intros s H; [exact H|].
  simpl. apply IH. now apply serve_one_bound.
Qed.

Lemma even_not_multiple_of_ten (n : nat) :
  Nat.even n = true -> (Nat.modulo (S n) 10 =? 0)%nat = false.
Proof.
  intro H. apply Nat.even_spec in H as [k Hk].
  apply Nat.eqb_neq. intro E.
  pose proof (Nat.div_mod_eq (S n) 10). lia.
Qed.

Lemma Forall_skipn {A} (P : A -> Prop) (n : nat) (l : list A) :
  Forall P l -> Forall P (skipn n l).
Proof.
  revert l. induction n as [|n IH]; intros l H; [exact H|].
  destruct l as [|x l]; [constructor|].
  simpl. apply IH. now inversion H.
Qed.

Lemma replies_persisted (max_tokens : Z) (engine : engine_stream)
    (history : list Turn) :
  replies max_tokens engine = true ->
  exists reply,
    turn_role reply = assistant
    /\ snd (generate_stream max_tokens engine history) = history ++ [reply].
Proof.
  unfold replies, generate_stream.
  destruct (stream_loop max_tokens engine initial_state) as [st how].
  intro H.
  assert (Hp : is_blank (full_response st) = false ->
               exists reply,
                 turn_role reply = assistant
                 /\ persist_response (full_response st) history
                    = history ++ [reply]).
  { intro Hb. unfold persist_response.
    destruct (strip (full_response st)) eqn:E.
    - apply strip_blank in E. congruence.
    - eexists. split; [|reflexivity]. reflexivity. }
  destruct how; try discriminate H; simpl; apply Hp;
    now apply negb_true_iff in H.
Qed.

Lemma plain_exchange_alternating (s : session) (op : operation) :
  plain_exchange op = true ->
  alternating (conversation_history s) ->
  alternating (conversation_history (serve_one s op)).
Proof.
  destruct op as [spf se loaded regen ui m draw engine|i| |draw];
    try discriminate.
  simpl. destruct loaded; [|discriminate].
  destruct regen; [discriminate|].
  intros Hreply [Heven Htail].
  cbn [serve_one]. rewrite generate_history.
  unfold prepare, begin_request. cbn [conversation_history].
  set (h := conversation_history s) in *.
  set (u := {| turn_role := user; content := ui |}).
  assert (Hrem : add_reminder spf (h ++ [u]) = h ++ [u]).
  { unfold add_reminder. rewrite length_app, Nat.add_1_r.
    now rewrite (even_not_multiple_of_ten _ Heven). }
  rewrite Hrem.
  destruct (replies_persisted m engine (compact spf se (h ++ [u])) Hreply)
    as (reply & Hrole & ->).
  assert (Hlast : Forall (fun msg => turn_role msg <> system) [reply])
    by (constructor; [rewrite Hrole; discriminate | constructor]).
  assert (Htl : Forall (fun msg => turn_role msg <> system) (tl (h ++ [u]))).
  { destruct h as [|t h]; [constructor|].
    simpl. apply Forall_app. split; [exact Htail|].
    constructor; [discriminate | constructor]. }
  destruct (Nat.le_gt_cases (List.length (h ++ [u])) 100) as [Hle|Hgt].
  - rewrite compact_below_threshold by assumption. split.
    + rewrite !length_app. simpl.
      replace (List.length h + 1 + 1)%nat with (S (S (List.length h)))
        by lia.
      exact Heven.
    + destruct h as [|t h]; simpl; [exact Hlast|].
      rewrite <- app_assoc. apply Forall_app. split; [exact Htail|].
      constructor; [discriminate | exact Hlast].
  - rewrite compact_above_threshold by assumption. split.
    + rewrite length_app. cbn [List.length]. rewrite last_items_length.
      replace (Nat.min 50 (List.length (h ++ [u]))) with 50%nat by lia.
      reflexivity.
    + simpl. apply Forall_app. split; [|exact Hlast].
      unfold last_items.
      replace (List.length (h ++ [u]) - 50)%nat
        with (S (List.length (h ++ [u]) - 51))%nat by lia.
      destruct (h ++ [u]) as [|t l] eqn:E; [simpl in Hgt; lia|].
      rewrite skipn_cons. now apply Forall_skipn.
Qed.

(** X14.  In a conversation made only of requests for a new message,
    each answered by a reply that is persisted, the reminder of the
    system prompt is never inserted: after every exchange the history has
    an even number of turns and no system turn after its first turn. *)
Theorem plain_conversation_gets_no_reminder
    (ops : list operation) (draw : Z) :
  forallb plain_exchange ops = true ->
  Nat.even (List.length (conversation_history (serve ops (start draw))))
  = true
  /\ Forall (fun msg => turn_role msg <> system)
       (tl (conversation_history (serve ops (start draw)))).
Proof.
  unfold serve.
  assert (H : alternating (conversation_history (start draw)))
    by (split; [reflexivity | constructor]).
  revert H. generalize (start draw).
  induction ops as [|op ops IH]; intros s H Hops; [exact H|].
  simpl in Hops. apply andb_true_iff in Hops as [Hop Hops].
  simpl. apply IH; [|exact Hops].
  now apply plain_exchange_alternating.
Qed.

Lemma plain_conversation_gets_no_reminder_witness :
  let exchange :=
    Generate None (fun _ => Finished) true false "And then?" 1024 7
             (stream_of [tok "It rained."] Finished) in
  let history :=
    conversation_history (serve (repeat exchange 5) (start 42)) in
  List.length history = 10%nat
  /\ Nat.even (List.length history) = true
  /\ Forall (fun msg => turn_role msg <> system) (tl history).
Proof.
  intros exchange history. split; [vm_compute; reflexivity|].
  apply (plain_conversation_gets_no_reminder (repeat exchange 5) 42).
  vm_compute. reflexivity.
Defined.

(** ** The message endpoints *)

Lemma pop_at_nth_error {A} (i : nat) (l : list A) :
  (i < List.length l)%nat ->
  S (List.length (pop_at i l)) = List.length l
  /\ (forall j, (j < i)%nat -> nth_error (pop_at i l) j = nth_error l j)
  /\ (forall j, (i <= j)%nat ->
        nth_error (pop_at i l) j = nth_error l (S j)).
Proof.
  intro H. unfold pop_at. split; [|split].
  - rewrite length_app, length_firstn, length_skipn. lia.
  - intros j Hj. rewrite nth_error_app1 by (rewrite length_firstn; lia).
    rewrite nth_error_firstn.
    destruct (Nat.ltb_spec j i); [reflexivity | lia].
  - intros j Hj. rewrite nth_error_app2 by (rewrite length_firstn; lia).
    rewrite nth_error_skipn, length_firstn. f_equal. lia.
Qed.

(** X15.  [/delete_message] with an index inside the history removes the
    turn at that position and no other: the turns before it stay where
    they are and the turns after it move up by one.  With an index that
    is missing, negative or past the end, the history is left as it is
    and [lastUserPrompt] is not assigned. *)
Theorem delete_message_removes_one_turn (i : Z) (history : list Turn) :
  (0 <= i < Z.of_nat (List.length history) ->
   let history' := fst (delete_message (Some i) history) in
   S (List.length history') = List.length history
   /\ (forall j, (j < Z.to_nat i)%nat ->
         nth_error history' j = nth_error history j)
   /\ (forall j, (Z.to_nat i <= j)%nat ->
         nth_error history' j = nth_error history (S j)))
  /\ (i < 0 \/ Z.of_nat (List.length history) <= i ->
      delete_message (Some i) history = (history, None))
  /\ delete_message None history = (history, None).
Proof.
  unfold delete_message. split; [|split; [|reflexivity]].
  - intro H.
    destruct (0 <=? i) eqn:E1; [|apply Z.leb_gt in E1; lia].
    destruct (i <? Z.of_nat (List.length history)) eqn:E2;
      [|apply Z.ltb_ge in E2; lia].
    cbn [andb fst]. apply pop_at_nth_error. lia.
  - intro H.
    destruct (0 <=? i) eqn:E1; [|reflexivity].
    destruct (i <? Z.of_nat (List.length history)) eqn:E2; [|reflexivity].
    apply Z.leb_le in E1. apply Z.ltb_lt in E2. lia.
Qed.

Lemma delete_message_removes_one_turn_witness :
  let a := {| turn_role := user; content := "a" |} in
  let b := {| turn_role := assistant; content := "b" |} in
  let c := {| turn_role := user; content := "c" |} in
  S (List.length (fst (delete_message (Some 1) [a; b; c]))) = 3%nat
  /\ delete_message (Some 3) [a; b; c] = ([a; b; c], None).
Proof.
  intros a b c. split.
  - apply (proj1 (delete_message_removes_one_turn 1 [a; b; c])).
    simpl. lia.
  - apply (proj1 (proj2 (delete_message_removes_one_turn 3 [a; b; c]))).
    right. simpl. lia.
Defined.

Lemma last_user_prompt_snoc (history : list Turn) (msg : Turn) :
  last_user_prompt (history ++ [msg])
  = match turn_role msg with
    | user => content msg
    | _ => last_user_prompt history
    end.
Proof.
  unfold last_user_prompt. now rewrite rev_unit.
Qed.

Lemma last_user_prompt_spec (history : list Turn) :
  (Forall (fun msg => turn_role msg <> user) history
   /\ last_user_prompt history = "")
  \/ exists before msg after,
       history = before ++ msg :: after
       /\ turn_role msg = user
       /\ Forall (fun m => turn_role m <> user) after
       /\ last_user_prompt history = content msg.
Proof.
  induction history as [|x l IH] using rev_ind.
  - left. split; [constructor | reflexivity].
  - rewrite last_user_prompt_snoc.
    destruct (turn_role x) eqn:Ex.
    + right. exists l, x, []. repeat split; [assumption | constructor].
    + destruct IH as [[Hall Hp] | (before & msg & after & -> & Hu & Ha & Hp)].
      * left. split; [|exact Hp]. apply Forall_app. split; [exact Hall|].
        constructor; [rewrite Ex; discriminate | constructor].
      * right. exists before, msg, (after ++ [x]).
        rewrite <- app_assoc. repeat split; try assumption.
        apply Forall_app. split; [exact Ha|].
        constructor; [rewrite Ex; discriminate | constructor].
    + destruct IH as [[Hall Hp] | (before & msg & after & -> & Hu & Ha & Hp)].
      * left. split; [|exact Hp]. apply Forall_app. split; [exact Hall|].
        constructor; [rewrite Ex; discriminate | constructor].
      * right. exists before, msg, (after ++ [x]).
        rewrite <- app_assoc. repeat split; try assumption.
        apply Forall_app. split; [exact Ha|].
        constructor; [rewrite Ex; discriminate | constructor].
Qed.

(** X16.  Whenever one of the two delete endpoints removes a turn, the
    value it assigns to [lastUserPrompt] is the content of the latest
    user turn of the history that is left, and the empty text when no
    user turn is left. *)
Theorem deletion_recomputes_last_user_prompt
    (message_index : option Z) (history history' : list Turn)
    (prompt : string) :
  delete_message message_index history = (history', Some prompt)
  \/ delete_last_message history = (history', Some prompt) ->
  (Forall (fun msg => turn_role msg <> user) history' /\ prompt = "")
  \/ exists before msg after,
       history' = before ++ msg :: after
       /\ turn_role msg = user
       /\ Forall (fun m => turn_role m <> user) after
       /\ prompt = content msg.
Proof.
  intro H.
  assert (Hp : prompt = last_user_prompt history').
  { destruct H as [H|H].
    - unfold delete_message in H. destruct message_index as [i|];
        [|discriminate].
      destruct ((0 <=? i) && (i <? Z.of_nat (List.length history)));
        [|discriminate].
      injection H as <- <-. reflexivity.
    - unfold delete_last_message in H. destruct history; [discriminate|].
      injection H as <- <-. reflexivity. }
  subst prompt.
  destruct (last_user_prompt_spec history')
    as [Hnone | (before & msg & after & Hh & Hu & Ha & Hc)].
  - now left.
  - right. now exists before, msg, after.
Qed.

Lemma deletion_recomputes_last_user_prompt_witness :
  let a := {| turn_role := user; content := "first" |} in
  let b := {| turn_role := assistant; content := "reply" |} in
  let c := {| turn_role := user; content := "second" |} in
  (Forall (fun msg => turn_role msg <> user) [a; b] /\ "first" = "")
  \/ exists before msg after,
       [a; b] = before ++ msg :: after
       /\ turn_role msg = user
       /\ Forall (fun m => turn_role m <> user) after
       /\ "first" = content msg.
Proof.
  intros a b c.
  apply (deletion_recomputes_last_user_prompt None [a; b; c] [a; b] "first").
  right. reflexivity.
Defined.

(** X17.  [/delete_last_message] does what [/delete_message] does with
    the index of the last turn, on every history, the empty one
    included. *)
Theorem delete_last_is_delete_at_last_index (history : list Turn) :
  delete_last_message history
  = delete_message (Some (Z.of_nat (List.length history) - 1)) history.
Proof.
  unfold delete_last_message, delete_message.
  destruct history as [|t l]; [reflexivity|].
  set (h := t :: l).
  assert (Hlen : (0 < List.length h)%nat) by (simpl; lia).
  destruct (0 <=? Z.of_nat (List.length h) - 1) eqn:E1;
    [|apply Z.leb_gt in E1; lia].
  destruct (Z.of_nat (List.length h) - 1 <? Z.of_nat (List.length h)) eqn:E2;
    [|apply Z.ltb_ge in E2; lia].
  cbn [andb].
  replace (pop_at (Z.to_nat (Z.of_nat (List.length h) - 1)) h)
    with (removelast h); [reflexivity|].
  unfold pop_at. rewrite removelast_firstn_len.
  replace (Z.to_nat (Z.of_nat (List.length h) - 1))
    with (Nat.pred (List.length h)) by lia.
  replace (S (Nat.pred (List.length h))) with (List.length h) by lia.
  now rewrite skipn_all, app_nil_r.
Qed.

(** X18.  Deleting the last message right after a request for a new
    message was prepared gives back the history as it was before the
    request; and on a history that ends with an assistant turn, the
    regenerate step removes the same turn as [/delete_last_message]. *)
Theorem delete_last_undoes_append
    (user_input : string) (draw : Z) (s : session) :
  delete_last_message
    (conversation_history (begin_request false user_input draw s))
  = (conversation_history s,
     Some (last_user_prompt (conversation_history s)))
  /\ (forall before last,
        conversation_history s = before ++ [last] ->
        turn_role last = assistant ->
        conversation_history (begin_request true user_input draw s)
        = fst (delete_last_message (conversation_history s))).
Proof.
  assert (Hdel : forall (h : list Turn) (t : Turn),
             delete_last_message (h ++ [t])
             = (h, Some (last_user_prompt h))).
  { intros h t. unfold delete_last_message.
    destruct (h ++ [t]) as [|x l] eqn:E;
      [now destruct h|].
    rewrite <- E. now rewrite removelast_last. }
  split.
  - unfold begin_request. cbn [conversation_history]. apply Hdel.
  - intros before last H Hrole.
    unfold begin_request. cbn [conversation_history].
    rewrite H, rev_unit, Hdel. destruct last as [r c].
    simpl in Hrole. subst r. cbn [fst]. apply removelast_last.
Qed.

Lemma delete_last_undoes_append_witness :
  let s := {| conversation_history :=
                [ {| turn_role := user; content := "Hi" |};
                  {| turn_role := assistant; content := "Hello" |} ];
              current_seed := 42 |} in
  conversation_history (begin_request true "" 7 s)
  = fst (delete_last_message (conversation_history s)).
Proof.
  intro s.
  apply (proj2 (delete_last_undoes_append "" 7 s)
           [ {| turn_role := user; content := "Hi" |} ]
           {| turn_role := assistant; content := "Hello" |});
    reflexivity.
Defined.

(** ** Sampling parameters *)

Lemma dict_lookup_present (key : string) (entries : list (string * json)) :
  existsb (String.eqb key) (map fst entries) = true ->
  exists v, dict_lookup key entries = Some v.
Proof.
  induction entries as [|[k v] entries IH]; [discriminate|].
  simpl. rewrite String.eqb_sym. destruct (String.eqb k key).
  - intros _. now exists v.
  - exact IH.
Qed.

Lemma well_formed_has_keys (entries : list (string * json)) (key : string) :
  spec_well_formed (JDict entries) = true ->
  In key recognized_keys ->
  exists v, dict_lookup key entries = Some v.
Proof.
  unfold spec_well_formed. intros H Hkey.
  apply andb_true_iff in H as [H _]. apply andb_true_iff in H as [H _].
  rewrite forallb_forall in H. apply dict_lookup_present. now apply H.
Qed.

(** X19.  When the preference file is missing or holds a well-formed
    mapping, the sampling parameters of every request are resolved: each
    one is the value the request gives for its key, whatever that value
    is, and the stored one when the request does not have the key. *)
Theorem parameters_resolve_on_well_formed_store
    (data : list (string * json)) (store : file) :
  store = Absent
  \/ (exists v, store = Holds v /\ spec_well_formed v = true) ->
  exists prefs max_tokens temperature top_p top_k repetition_penalty,
    load_slider_preferences store = Returns (JDict prefs)
    /\ dict_lookup "max_tokens" prefs = Some max_tokens
    /\ dict_lookup "temperature" prefs = Some temperature
    /\ dict_lookup "top_p" prefs = Some top_p
    /\ dict_lookup "top_k" prefs = Some top_k
    /\ dict_lookup "repetition_penalty" prefs = Some repetition_penalty
    /\ resolve_parameters data store
       = inl {| req_prompt := dict_get "prompt" (JStr "") data;
                req_max_tokens := dict_get "max_tokens" max_tokens data;
                req_temperature := dict_get "temperature" temperature data;
                req_top_p := dict_get "top_p" top_p data;
                req_top_k := dict_get "top_k" top_k data;
                req_repetition_penalty :=
                  dict_get "repetition_penalty" repetition_penalty data;
                req_regenerate := dict_get "regenerate" (JBool false) data |}.
Proof.
  intro H.
  assert (Hprefs : exists prefs,
             load_slider_preferences store = Returns (JDict prefs)
             /\ forall key, In key recognized_keys ->
                  exists v, dict_lookup key prefs = Some v).
  { destruct H as [-> | (v & -> & Hv)].
    - eexists. split; [reflexivity|].
      intros key Hkey. apply dict_lookup_present.
      simpl in Hkey. decompose [or] Hkey; subst; try reflexivity.
      contradiction.
    - destruct v as [| | | | | |entries]; try discriminate.
      exists entries. split; [reflexivity|].
      intros key Hkey. now apply well_formed_has_keys. }
  destruct Hprefs as (prefs & Hload & Hkeys).
  destruct (Hkeys "max_tokens") as [m Hm]; [simpl; auto 6|].
  destruct (Hkeys "temperature") as [t Ht]; [simpl; auto 6|].
  destruct (Hkeys "top_p") as [p Hp]; [simpl; auto 6|].
  destruct (Hkeys "top_k") as [k Hk]; [simpl; auto 6|].
  destruct (Hkeys "repetition_penalty") as [r Hr]; [simpl; auto 6|].
  exists prefs, m, t, p, k, r. repeat (split; [assumption|]).
  unfold resolve_parameters, with_default, subscript.
  now rewrite Hload, Hm, Ht, Hp, Hk, Hr.
Qed.

Lemma parameters_resolve_on_well_formed_store_witness :
  exists p,
    resolve_parameters [("prompt", JStr "Hi"); ("max_tokens", JInt 64)] Absent
    = inl p
    /\ req_max_tokens p = JInt 64
    /\ req_top_k p = JInt 50.
Proof.
  destruct (parameters_resolve_on_well_formed_store
              [("prompt", JStr "Hi"); ("max_tokens", JInt 64)] Absent)
    as (prefs & m & t & p & k & r & Hload & Hm & Ht & Hp & Hk & Hr & H).
  - left. reflexivity.
  - eexists. split; [exact H|].
    injection Hload as <-. injection Hk as <-. split; reflexivity.
Defined.

(** X20.  A mapping that is not empty but lacks one of the five keys is
    accepted by [/save_preferences], and from then on the parameters of
    no request can be resolved: looking up the stored default raises a
    key error even when the request gives every parameter itself. *)
Theorem saved_mapping_without_key_breaks_requests
    (entries data : list (string * json)) (store : file) (key : string) :
  entries <> [] ->
  In key recognized_keys ->
  dict_lookup key entries = None ->
  fst (save_preferences (Returns (JDict entries)) store) = Saved
  /\ exists missing,
       In missing recognized_keys
       /\ dict_lookup missing entries = None
       /\ resolve_parameters data
            (snd (save_preferences (Returns (JDict entries)) store))
          = inr (KeyError missing).
Proof.
  intros Hne Hkey Hnone.
  assert (Hsave : save_preferences (Returns (JDict entries)) store
                  = (Saved, Holds (JDict entries))).
  { unfold save_preferences. destruct entries; [contradiction|reflexivity]. }
  rewrite Hsave. split; [reflexivity|]. cbn [snd].
  unfold resolve_parameters, with_default, subscript.
  cbn [load_slider_preferences].
  destruct (dict_lookup "max_tokens" entries) eqn:E1;
    [|exists "max_tokens"; simpl; auto 8].
  destruct (dict_lookup "temperature" entries) eqn:E2;
    [|exists "temperature"; simpl; auto 8].
  destruct (dict_lookup "top_p" entries) eqn:E3;
    [|exists "top_p"; simpl; auto 8].
  destruct (dict_lookup "top_k" entries) eqn:E4;
    [|exists "top_k"; simpl; auto 8].
  destruct (dict_lookup "repetition_penalty" entries) eqn:E5;
    [|exists "repetition_penalty"; simpl; auto 8].
  simpl in Hkey. decompose [or] Hkey; subst; try congruence.
  contradiction.
Qed.

Lemma saved_mapping_without_key_breaks_requests_witness :
  let entries := [("temperature", JFloat 0.7); ("top_p", JFloat 0.9)] in
  let data := [ ("prompt", JStr "Hi"); ("max_tokens", JInt 64);
                ("temperature", JFloat 1); ("top_p", JFloat 1);
                ("top_k", JInt 40); ("repetition_penalty", JFloat 1.1) ] in
  fst (save_preferences (Returns (JDict entries)) Absent) = Saved
  /\ exists missing,
       In missing recognized_keys
       /\ dict_lookup missing entries = None
       /\ resolve_parameters data
            (snd (save_preferences (Returns (JDict entries)) Absent))
          = inr (KeyError missing).
Proof.
  intros entries data.
  apply (saved_mapping_without_key_breaks_requests entries data Absent
           "top_k").
  - discriminate.
  - simpl. auto.
  - reflexivity.
Defined.

(** ** Seed, failures and the repetition check *)

(** X21.  The seed of the session changes only when it is randomized or
    when a regeneration is served with the model loaded: requests for a
    new message, deletions and requests refused because the model is not
    loaded leave it as it is. *)
Theorem seed_changes_only_on_request
    (ops : list operation) (s : session) :
  forallb keeps_seed ops = true ->
  current_seed (serve ops s) = current_seed s.
Proof.
  unfold serve. revert s.
  induction ops as [|op ops IH]; intros s H; [reflexivity|].
  simpl in H. apply andb_true_iff in H as [Hop Hops].
  simpl. rewrite (IH _ Hops).
  destruct op as [spf se loaded regen ui m draw engine|i| |draw];
    try reflexivity; [|discriminate].
  simpl. unfold generate. destruct loaded; [|reflexivity].
  destruct regen; [discriminate|].
  now destruct (generate_stream m engine _).
Qed.

Lemma seed_changes_only_on_request_witness :
  current_seed
    (serve [ Generate None (fun _ => Finished) true false "Hi" 1024 7
               (stream_of [tok "Hello."] Finished);
             Generate None (fun _ => Finished) false true "" 1024 8 Finished;
             DeleteLastMessage ]
       (start 42))
  = 42.
Proof.
  apply (seed_changes_only_on_request
           [ Generate None (fun _ => Finished) true false "Hi" 1024 7
               (stream_of [tok "Hello."] Finished);
             Generate None (fun _ => Finished) false true "" 1024 8 Finished;
             DeleteLastMessage ]
           (start 42)).
  reflexivity.
Defined.

(** X22.  When the engine fails during a request for a new message, the
    message of the request is not taken back: the history after the
    request is the prepared history, which holds the message and no
    reply to it. *)
Theorem failed_request_keeps_user_message
    (system_prompt_file : option string)
    (summary_engine : string -> engine_stream)
    (user_input : string) (max_tokens draw : Z) (engine : engine_stream)
    (s : session) (st : loop_state) (msg : string) :
  stream_loop max_tokens engine initial_state = (st, Raised msg) ->
  conversation_history
    (snd (generate system_prompt_file summary_engine true false user_input
            max_tokens draw engine s))
  = conversation_history
      (prepare system_prompt_file summary_engine false user_input draw s)
  /\ In {| turn_role := user; content := user_input |}
       (conversation_history
          (snd (generate system_prompt_file summary_engine true false
                  user_input max_tokens draw engine s))).
Proof.
  intro H.
  assert (E : conversation_history
                (snd (generate system_prompt_file summary_engine true false
                        user_input max_tokens draw engine s))
              = conversation_history
                  (prepare system_prompt_file summary_engine false
                     user_input draw s)).
  { rewrite generate_history. unfold generate_stream. now rewrite H. }
  split; [exact E|]. rewrite E.
  destruct (prepared_history_ends_with_message system_prompt_file
              summary_engine user_input draw s) as [front [-> | ->]];
    apply in_or_app; right; simpl; auto.
Qed.

Lemma failed_request_keeps_user_message_witness :
  conversation_history
    (snd (generate None (fun _ => Finished) true false "Hi" 1024 7
            (stream_of [tok "Hel"] (Failure "device lost")) (start 42)))
  = conversation_history (prepare None (fun _ => Finished) false "Hi" 7
                            (start 42))
  /\ In {| turn_role := user; content := "Hi" |}
       (conversation_history
          (snd (generate None (fun _ => Finished) true false "Hi" 1024 7
                  (stream_of [tok "Hel"] (Failure "device lost"))
                  (start 42)))).
Proof.
  apply (failed_request_keeps_user_message None (fun _ => Finished) "Hi"
           1024 7 (stream_of [tok "Hel"] (Failure "device lost")) (start 42)
           {| full_response := "Hel";
              token_count := 1;
              last_50_tokens := ["Hel"];
              recent_tokens := ["Hel"];
              yielded := [TokenFrame "Hel"] |}
           "device lost").
  vm_compute. reflexivity.
Defined.

Lemma no_space_app (a b : string) :
  no_space (a ++ b) = no_space a && no_space b.
Proof.
  induction a as [|c a IH]; simpl; [reflexivity|].
  now rewrite IH, andb_assoc.
Qed.

Lemma no_space_join (tokens : list string) :
  Forall (fun t => no_space t = true) tokens ->
  no_space (join tokens) = true.
Proof.
  induction 1 as [|t tokens Ht _ IH]; [reflexivity|].
  simpl. now rewrite no_space_app, Ht, IH.
Qed.

(** A text without white space is one word at most. *)
Lemma split_from_no_space (s : string) :
  no_space s = true ->
  forall cur, (List.length (split_from s cur) <= 1)%nat.
Proof.
  induction s as [|c s IH]; intros H cur.
  - destruct cur; simpl; lia.
  - simpl in H. apply andb_true_iff in H as [Hc Hs].
    apply negb_true_iff in Hc. simpl. rewrite Hc.
    destruct cur; now apply IH.
Qed.

Lemma repetition_needs_white_space (count : Z) (last50 : list string) :
  Forall (fun t => no_space t = true) last50 ->
  repetition_detected count last50 = false.
Proof.
  intro H. unfold repetition_detected.
  assert (Hwords : (List.length (split (join (last_items 40 last50)))
                    <= 1)%nat).
  { apply split_from_no_space, no_space_join.
    unfold last_items. now apply Forall_skipn. }
  destruct (15 <? List.length (split (join (last_items 40 last50))))%nat
    eqn:E.
  - apply Nat.ltb_lt in E. lia.
  - cbn [andb]. apply andb_false_r.
Qed.

Lemma push_window_no_space (size : nat) (x : string) (l : list string) :
  no_space x = true ->
  Forall (fun t => no_space t = true) l ->
  Forall (fun t => no_space t = true) (push_window size x l).
Proof.
  intros Hx Hl. unfold push_window.
  assert (H : Forall (fun t => no_space t = true) (l ++ [x])).
  { apply Forall_app. split; [exact Hl|]. now constructor. }
  destruct (size <? List.length (l ++ [x]))%nat; [|exact H].
  destruct (l ++ [x]); [constructor | now inversion H].
Qed.

Lemma loop_body_no_space (m : Z) (r : response) (st st' : loop_state)
    (how : option loop_exit) :
  no_space (text r) = true ->
  Forall (fun t => no_space t = true) (last_50_tokens st) ->
  loop_body m r st = (st', how) ->
  Forall (fun t => no_space t = true) (last_50_tokens st')
  /\ how <> Some RepetitionBreak.
Proof.
  intros Hr Hst. unfold loop_body.
  pose proof (push_window_no_space 50 _ _ Hr Hst) as Hw.
  rewrite (repetition_needs_white_space _ _ Hw).
  repeat match goal with
         | |- context [if ?c then _ else _] => destruct c
         end;
    intro H; injection H as <- <-; split; simpl;
    try assumption; discriminate.
Qed.

(** X23.  The repetition check counts words separated by white space:
    an engine whose tokens hold no white space at all is never stopped
    by it, however often it repeats itself. *)
Theorem repetition_check_needs_white_space
    (max_tokens : Z) (engine : engine_stream) :
  spaceless engine = true ->
  snd (stream_loop max_tokens engine initial_state) <> RepetitionBreak.
Proof.
  assert (H : Forall (fun t => no_space t = true)
                (last_50_tokens initial_state)) by constructor.
  revert H. generalize initial_state.
  induction engine as [|msg|r rest IH]; intros st Hst Hengine;
    simpl; try discriminate.
  simpl in Hengine. apply andb_true_iff in Hengine as [Hr Hrest].
  destruct (loop_body max_tokens r st) as [st1 [x|]] eqn:E;
    destruct (loop_body_no_space _ _ _ _ _ Hr Hst E) as [Hst1 Hx].
  - simpl. intro Hrep. apply Hx. now rewrite Hrep.
  - now apply IH.
Qed.

Lemma repetition_check_needs_white_space_witness :
  snd (stream_loop 1024 (unroll (fun _ => tok "ha") 120 Finished)
         initial_state)
  <> RepetitionBreak.
Proof.
  apply (repetition_check_needs_white_space 1024
           (unroll (fun _ => tok "ha") 120 Finished)).
  vm_compute. reflexivity.
Defined.
